(** * Invoice/payment ledger of the accounting assistant: a shallow embedding

    The development follows the TypeScript sources:
    - [client/src/lib/currency-service.ts]  (module [Money]),
    - [shared/schema.ts]                    (module [Schema]),
    - [server/storage.ts]                   (module [Storage]),
    - [server/routes.ts]                    (module [Routes]),
    - [client/src/pages/reports-page.tsx]   (module [Reports]).

    JavaScript numbers are IEEE-754 binary64 values; they are modelled by
    Rocq's primitive floats, so that every arithmetic step of the program
    is the very operation the JavaScript engine performs. *)

From Stdlib Require Import ZArith List Bool String Ascii Lia Permutation.
From Stdlib Require Import Floats Uint63 DecimalString.
Import ListNotations.
Open Scope Z_scope.

(** ** JavaScript numbers *)

Module JsNumber.

(** The binary64 value nearest to the integer [z] (ties to even). *)
Definition of_Z (z : Z) : float :=
  SF2Prim (binary_normalize prec emax z 0 false).

(** The binary64 value nearest to [(-1)^neg * num / den], for [den > 0]:
    one correctly rounded division of exact integers. *)
Definition of_ratio (neg : bool) (num : Z) (den : positive) : float :=
  match num with
  | Zpos n =>
      SF2Prim (SFdiv prec emax (S754_finite neg n 0) (S754_finite false den 0))
  | _ => if neg then neg_zero else zero
  end.

(** [Number(s)] for a column of SQL type [decimal(10,2)].  Such a value
    is a whole number [c] of hundredths and is transmitted as the text
    of [c / 100] with two fractional digits; [Number] reads that text as
    the binary64 value nearest to [c / 100]. *)
Definition Number_of_decimal (c : Z) : float :=
  of_ratio (c <? 0) (Z.abs c) 100.

(** The integer nearest to the finite number [x], ties towards
    [+infinity]; [None] for infinities and NaN. *)
Definition nearest_integer (x : float) : option Z :=
  match Prim2SF x with
  | S754_zero _ => Some 0
  | S754_finite s m e =>
      let n := if s then Z.neg m else Z.pos m in
      if 0 <=? e then Some (n * 2 ^ e)
      else Some ((2 * n + 2 ^ (- e)) / (2 * 2 ^ (- e)))
  | _ => None
  end.

(** [Math.round(x)]. *)
Definition Math_round (x : float) : float :=
  match nearest_integer x with
  | Some 0 => if get_sign x then neg_zero else zero
  | Some n => of_Z n
  | None => x
  end.

(** Decimal text of a natural number. *)
Definition digits (n : N) : string :=
  NilZero.string_of_uint (N.to_uint n).

(** [n] hundredths written with exactly two fractional digits. *)
Definition render_hundredths (n : N) : string :=
  let frac := (n mod 100)%N in
  let pad := if (frac <? 10)%N then "0"%string else ""%string in
  (digits (n / 100) ++ "." ++ pad ++ digits frac)%string.

(** [x.toFixed(2)].  The absolute value is rounded to the nearest
    hundredth, the larger candidate on a tie.  From [1e21] upwards
    JavaScript switches to exponent notation, which is not modelled:
    the result is [None] there. *)
Definition toFixed2 (x : float) : option string :=
  match Prim2SF x with
  | S754_nan => Some "NaN"%string
  | S754_infinity s => Some (if s then "-Infinity" else "Infinity")%string
  | S754_zero _ => Some "0.00"%string
  | S754_finite s m e =>
      if (abs x <? of_Z (10 ^ 21))%float then
        let n :=
          if 0 <=? e then Z.pos m * 2 ^ e * 100
          else (2 * (Z.pos m * 100) + 2 ^ (- e)) / (2 * 2 ^ (- e)) in
        let sign := if s then "-"%string else ""%string in
        Some (sign ++ render_hundredths (Z.to_N n))%string
      else None
  end.

End JsNumber.

(** ** Monetary helpers ([client/src/lib/currency-service.ts]) *)

Module Money.
Import JsNumber.

(** *** [parseFloat] *)

Definition is_white_space (c : ascii) : bool :=
  let n := nat_of_ascii c in
  orb (Nat.eqb n 32) (andb (Nat.leb 9 n) (Nat.leb n 13)).

Fixpoint trim_start (s : string) : string :=
  match s with
  | String c rest => if is_white_space c then trim_start rest else s
  | EmptyString => s
  end.

Definition digit_value (c : ascii) : option Z :=
  let n := nat_of_ascii c in
  if andb (Nat.leb 48 n) (Nat.leb n 57) then Some (Z.of_nat n - 48) else None.

(** Reads the longest run of decimal digits at the head of [s]:
    its value after [acc], the number of digits read, and the rest. *)
Fixpoint read_digits (s : string) (acc : Z) (count : Z) : Z * Z * string :=
  match s with
  | String c rest =>
      match digit_value c with
      | Some d => read_digits rest (10 * acc + d) (count + 1)
      | None => (acc, count, s)
      end
  | EmptyString => (acc, count, s)
  end.

Definition read_sign (s : string) : bool * string :=
  match s with
  | String "-" rest => (true, rest)
  | String "+" rest => (false, rest)
  | _ => (false, s)
  end.

(** The exponent part [e<sign><digits>], when present and complete. *)
Definition read_exponent (s : string) : Z :=
  match s with
  | String c rest =>
      if orb (Ascii.eqb c "e") (Ascii.eqb c "E") then
        let (neg, rest') := read_sign rest in
        let '(v, count, _) := read_digits rest' 0 0 in
        if count =? 0 then 0 else if neg then - v else v
      else 0
  | EmptyString => 0
  end.

(** The binary64 value nearest to [(-1)^neg * m * 10^k]. *)
Definition of_decimal (neg : bool) (m : Z) (k : Z) : float :=
  if 0 <=? k then of_ratio neg (m * 10 ^ k) 1
  else of_ratio neg m (Z.to_pos (10 ^ (- k))).

(** [parseFloat(s)]: leading white space (of the ASCII range) is skipped,
    then the longest prefix that is a decimal literal is read; [NaN] when
    there is none. *)
Definition parseFloat (input : string) : float :=
  let (neg, s1) := read_sign (trim_start input) in
  if String.prefix "Infinity" s1 then (if neg then neg_infinity else infinity)
  else
    let '(ip, ni, s2) := read_digits s1 0 0 in
    let '(m, nf, s3) :=
      match s2 with
      | String "." rest => read_digits rest ip 0
      | _ => (ip, 0, s2)
      end in
    if ni + nf =? 0 then nan
    else of_decimal neg m (read_exponent s3 - nf).

(** *** The part of dinero.js the helpers call

    dinero.js is a dependency of the repository.  A Dinero object holds
    an amount in minor units and a currency.  Every Dinero object, the
    result of [add] and [subtract] included, is made by [dinero], which
    throws unless the amount passes [Number.isInteger]; [add] and
    [subtract] throw when the currencies of their operands differ. *)

Record Currency := { code : string; base : Z; exponent : Z }.

Definition USD : Currency := {| code := "USD"; base := 10; exponent := 2 |}.

Definition currency_eqb (c1 c2 : Currency) : bool :=
  andb (String.eqb (code c1) (code c2))
       (andb (base c1 =? base c2) (exponent c1 =? exponent c2)).

Record Dinero := { amount : float; currency : Currency }.

(** What a call either returns or throws: [InvalidAmount] is the error
    "[Dinero.js] Amount is invalid." of [dinero], [UnequalCurrencies]
    the error of [add] and [subtract] that the specification calls
    [CurrencyMismatch]. *)
Inductive Exception := UnequalCurrencies | InvalidAmount.

Inductive Outcome (A : Type) :=
| Returns (a : A)
| Throws (e : Exception).
Arguments Returns {A} a.
Arguments Throws {A} e.

(** [Number.isInteger(x)]: [x] is finite and has no fractional part. *)
Definition isInteger (x : float) : bool :=
  match Prim2SF x with
  | S754_zero _ => true
  | S754_finite _ m e =>
      if 0 <=? e then true else Z.pos m mod 2 ^ (- e) =? 0
  | _ => false
  end.

Definition dinero (a : float) (c : Currency) : Outcome Dinero :=
  if isInteger a then Returns {| amount := a; currency := c |}
  else Throws InvalidAmount.

Definition add (d1 d2 : Dinero) : Outcome Dinero :=
  if currency_eqb (currency d1) (currency d2)
  then dinero (amount d1 + amount d2)%float (currency d1)
  else Throws UnequalCurrencies.

Definition subtract (d1 d2 : Dinero) : Outcome Dinero :=
  if currency_eqb (currency d1) (currency d2)
  then dinero (amount d1 - amount d2)%float (currency d1)
  else Throws UnequalCurrencies.

(** The text of [n] minor units: the units, a point and two digits, with
    a minus sign in front of a negative amount. *)
Definition decimal_text (n : Z) : string :=
  let sign := if n <? 0 then "-"%string else ""%string in
  (sign ++ render_hundredths (Z.to_N (Z.abs n)))%string.

(** [toDecimal] for a currency of base ten and exponent two, on the
    amounts [dinero] accepts.  The library divides the amount by 100 as
    a JavaScript number and prints the quotient with [Number]'s own
    [toString]; below [2^53] minor units that is the exact text.  Larger
    amounts are not modelled: the result is [None] there. *)
Definition toDecimal (d : Dinero) : option string :=
  if andb (isInteger (amount d)) (abs (amount d) <? of_Z (2 ^ 53))%float
  then option_map decimal_text (nearest_integer (amount d))
  else None.

(** *** The helpers themselves *)

Inductive Amount :=
| AmountNumber (x : float)
| AmountString (s : string).

(** The [amountInCents] of [amountToDinero]: the amount, read with
    [parseFloat] when it is text, times 100 and rounded. *)
Definition amountInCents (amount : Amount) : float :=
  let numericAmount :=
    match amount with
    | AmountString s => parseFloat s
    | AmountNumber x => x
    end in
  Math_round (numericAmount * of_Z 100)%float.

(** [amountToDinero].  The [currencyCode] argument is accepted and then
    not used: the Dinero object is always built with [USD].  The call
    throws when [amountInCents] is NaN or infinite. *)
Definition amountToDinero (amount : Amount) (currencyCode : string)
  : Outcome Dinero :=
  dinero (amountInCents amount) USD.

Definition dineroToDecimal (amount : Dinero) : option string :=
  toDecimal amount.

(** A call that throws ends the helper that made it. *)
Definition bind {A B : Type} (o : Outcome A) (k : A -> Outcome B) : Outcome B :=
  match o with
  | Returns a => k a
  | Throws e => Throws e
  end.

(** [addAmounts] and [subtractAmounts] take no currency; both operands
    go through [amountToDinero] with its default code. *)
Definition addAmounts (amount1 amount2 : Amount) : Outcome (option string) :=
  bind (amountToDinero amount1 "USD") (fun dinero1 =>
  bind (amountToDinero amount2 "USD") (fun dinero2 =>
  bind (add dinero1 dinero2) (fun result =>
  Returns (dineroToDecimal result)))).

Definition subtractAmounts (amount1 amount2 : Amount) : Outcome (option string) :=
  bind (amountToDinero amount1 "USD") (fun dinero1 =>
  bind (amountToDinero amount2 "USD") (fun dinero2 =>
  bind (subtract dinero1 dinero2) (fun result =>
  Returns (dineroToDecimal result)))).

End Money.

(** ** The tables ([shared/schema.ts]) *)

Module Schema.

Inductive Role := admin | accountant.

Record User := { user_id : Z; user_role : Role }.

Inductive Status := paid | pending | overdue.

Definition Status_eqb (a b : Status) : bool :=
  match a, b with
  | paid, paid | pending, pending | overdue, overdue => true
  | _, _ => false
  end.

(** A value of a [decimal(10,2)] column, counted in hundredths. *)
Definition decimal := Z.

Definition fits_decimal_10_2 (c : decimal) : bool := Z.abs c <? 10 ^ 10.

(** A value of a [date] column, the text [YYYY-MM-DD]; months run from
    1 to 12. *)
Record IsoDate := { iso_year : Z; iso_month : Z; iso_day : Z }.

(** Rows of [invoices]; [title], [clientName] and [clientId] are left
    out, no modelled operation reads them. *)
Record Invoice := {
  inv_id : Z;
  inv_amount : decimal;
  inv_date : IsoDate;
  inv_status : Status;
  inv_userId : Z
}.

(** Rows of [payments]. *)
Record Payment := {
  pay_id : Z;
  pay_invoiceId : Z;
  pay_amount : decimal;
  pay_date : IsoDate;
  pay_receiptGenerated : bool;
  pay_userId : Z
}.

(** [InsertPayment]: a payment without its [id]. *)
Record InsertPayment := {
  ins_invoiceId : Z;
  ins_amount : decimal;
  ins_date : IsoDate;
  ins_receiptGenerated : option bool;
  ins_userId : Z
}.

(** [Partial<InsertPayment>]. *)
Record PartialPayment := {
  part_invoiceId : option Z;
  part_amount : option decimal;
  part_date : option IsoDate;
  part_receiptGenerated : option bool;
  part_userId : option Z
}.

End Schema.

(** ** The storage layer ([server/storage.ts], class [DatabaseStorage]) *)

Module Storage.
Import Schema.

(** The two tables, rows in the order a [select] returns them, and the
    sequence behind [payments.id]. *)
Record Store := {
  invoices : list Invoice;
  payments : list Payment;
  next_payment_id : Z
}.

Definition set_invoices (st : Store) (l : list Invoice) : Store :=
  {| invoices := l; payments := payments st;
     next_payment_id := next_payment_id st |}.

Definition set_payments (st : Store) (l : list Payment) : Store :=
  {| invoices := invoices st; payments := l;
     next_payment_id := next_payment_id st |}.

(** [getInvoices(userId)]: the filter applies when [userId] is truthy. *)
Definition getInvoices (userId : option Z) (st : Store) : list Invoice :=
  match userId with
  | Some u => if u =? 0 then invoices st
              else filter (fun i => inv_userId i =? u) (invoices st)
  | None => invoices st
  end.

Definition getInvoice (id : Z) (st : Store) : option Invoice :=
  find (fun i => inv_id i =? id) (invoices st).

Definition with_status (s : Status) (i : Invoice) : Invoice :=
  {| inv_id := inv_id i; inv_amount := inv_amount i; inv_date := inv_date i;
     inv_status := s; inv_userId := inv_userId i |}.

(** [UPDATE ... SET ... WHERE ...] on a table: [change] is applied to
    the rows that satisfy [cond].  PostgreSQL writes an updated row as a new
    row version, and the SELECTs of this class, which have no ORDER BY,
    return it after the rows that were left alone. *)
Definition update_rows {A : Type} (cond : A -> bool) (change : A -> A)
                       (rows : list A) : list A :=
  filter (fun r => negb (cond r)) rows ++ map change (filter cond rows).

(** [updateInvoice(id, { status })], the only shape in which the payment
    routes call it. *)
Definition updateInvoice (id : Z) (s : Status) (st : Store) : Store :=
  set_invoices st
    (update_rows (fun i => inv_id i =? id) (with_status s) (invoices st)).

Definition getPayments (userId : option Z) (st : Store) : list Payment :=
  match userId with
  | Some u => if u =? 0 then payments st
              else filter (fun p => pay_userId p =? u) (payments st)
  | None => payments st
  end.

Definition getPaymentsByInvoice (invoiceId : Z) (st : Store) : list Payment :=
  filter (fun p => pay_invoiceId p =? invoiceId) (payments st).

Definition getPayment (id : Z) (st : Store) : option Payment :=
  find (fun p => pay_id p =? id) (payments st).

(** [createPayment]: the row is inserted and returned with its fresh
    [id]; the insert fails when the amount does not fit the column. *)
Definition createPayment (payment : InsertPayment) (st : Store)
  : option (Payment * Store) :=
  if fits_decimal_10_2 (ins_amount payment) then
    let newPayment :=
      {| pay_id := next_payment_id st;
         pay_invoiceId := ins_invoiceId payment;
         pay_amount := ins_amount payment;
         pay_date := ins_date payment;
         pay_receiptGenerated :=
           match ins_receiptGenerated payment with Some b => b | None => false end;
         pay_userId := ins_userId payment |} in
    Some (newPayment,
          {| invoices := invoices st;
             payments := payments st ++ [newPayment];
             next_payment_id := next_payment_id st + 1 |})
  else None.

Definition or_else {A : Type} (o : option A) (a : A) : A :=
  match o with Some x => x | None => a end.

Definition apply_partial (d : PartialPayment) (p : Payment) : Payment :=
  {| pay_id := pay_id p;
     pay_invoiceId := or_else (part_invoiceId d) (pay_invoiceId p);
     pay_amount := or_else (part_amount d) (pay_amount p);
     pay_date := or_else (part_date d) (pay_date p);
     pay_receiptGenerated := or_else (part_receiptGenerated d) (pay_receiptGenerated p);
     pay_userId := or_else (part_userId d) (pay_userId p) |}.

(** Whether the data name no column at all. *)
Definition sets_no_column (d : PartialPayment) : bool :=
  match part_invoiceId d, part_amount d, part_date d,
        part_receiptGenerated d, part_userId d with
  | None, None, None, None, None => true
  | _, _, _, _, _ => false
  end.

(** [updatePayment]: the new row when one was updated, and the store.
    The call fails when the data set no column (drizzle's [set] throws
    "No values to set") and when a new amount does not fit the column.
    The updated row is returned by later SELECTs after the rows that
    were left alone. *)
Definition updatePayment (id : Z) (payment : PartialPayment) (st : Store)
  : option (option Payment * Store) :=
  if sets_no_column payment then None
  else if fits_decimal_10_2 (or_else (part_amount payment) 0) then
    let st' :=
      set_payments st
        (update_rows (fun p => pay_id p =? id) (apply_partial payment)
                     (payments st)) in
    Some (getPayment id st', st')
  else None.

Definition deletePayment (id : Z) (st : Store) : Store :=
  set_payments st (filter (fun p => negb (pay_id p =? id)) (payments st)).

End Storage.

(** ** The payment and dashboard routes ([server/routes.ts]) *)

Module Routes.
Import JsNumber Schema Storage.

(** The JSON body of [POST /api/payments].  The amount is sent as text;
    [body_amount] is the [decimal(10,2)] value that text denotes, and
    [None] stands for a body without the key.  [body_extra] holds every
    key the insert schema does not know (a currency code, say); parsing
    strips them. *)
Record PaymentBody := {
  body_invoiceId : Z;
  body_amount : option decimal;
  body_date : option IsoDate;
  body_receiptGenerated : option bool;
  body_extra : list (string * string)
}.

Record DashboardStats := {
  totalRevenue : float;
  pendingInvoices : nat;
  totalPayments : float;
  outstandingBalance : float
}.

Inductive Response :=
| NotAuthenticated                       (* 401 *)
| NotFound                               (* 404 *)
| AccessDenied                           (* 403 *)
| InvalidData                            (* 400 *)
| Failed                                 (* the error handler, [next(error)] *)
| Created (payment : Payment)            (* 201 *)
| Updated (payment : option Payment)     (* 200 *)
| Deleted                                (* 204 *)
| Dashboard (stats : DashboardStats).    (* 200; only [stats] is modelled *)

Definition is_admin (u : User) : bool :=
  match user_role u with admin => true | accountant => false end.

(** [req.user?.role !== "admin" && row.userId !== req.user?.id] *)
Definition denied (u : User) (owner : Z) : bool :=
  andb (negb (is_admin u)) (negb (owner =? user_id u)).

(** [insertPaymentSchema.safeParse({ ...req.body, userId })] *)
Definition safeParse (body : PaymentBody) (userId : Z) : option InsertPayment :=
  match body_amount body, body_date body with
  | Some a, Some d =>
      Some {| ins_invoiceId := body_invoiceId body;
              ins_amount := a;
              ins_date := d;
              ins_receiptGenerated := body_receiptGenerated body;
              ins_userId := userId |}
  | _, _ => None
  end.

(** [l.reduce((sum, p) => sum + Number(p.amount), 0)] *)
Definition sumPayments (l : list Payment) : float :=
  fold_left (fun sum p => (sum + Number_of_decimal (pay_amount p))%float) l zero.

(** The status update of the create route, after the insert:
    the invoice read before the insert, the payments read after it, and
    the created payment appended to them. *)
Definition reconcile_created (invoice : Invoice) (payment : Payment) (st : Store)
  : Store :=
  let invoicePayments := getPaymentsByInvoice (inv_id invoice) st in
  let totalPaid := sumPayments (invoicePayments ++ [payment]) in
  if andb (Number_of_decimal (inv_amount invoice) <=? totalPaid)%float
          (negb (Status_eqb (inv_status invoice) paid))
  then updateInvoice (inv_id invoice) paid st
  else st.

(** [POST /api/payments] *)
Definition post_payment (user : option User) (body : PaymentBody) (st : Store)
  : Response * Store :=
  match user with
  | None => (NotAuthenticated, st)
  | Some u =>
      match getInvoice (body_invoiceId body) st with
      | None => (NotFound, st)
      | Some invoice =>
          if denied u (inv_userId invoice) then (AccessDenied, st)
          else
            match safeParse body (user_id u) with
            | None => (InvalidData, st)
            | Some data =>
                match createPayment data st with
                | None => (Failed, st)
                | Some (payment, st1) =>
                    (Created payment, reconcile_created invoice payment st1)
                end
            end
      end
  end.

(** [PUT /api/payments/:id].  The body is typed here, so the partial schema
    accepts it; the route has no step after [updatePayment] but the
    response. *)
Definition put_payment (user : option User) (id : Z) (data : PartialPayment)
                       (st : Store) : Response * Store :=
  match user with
  | None => (NotAuthenticated, st)
  | Some u =>
      match getPayment id st with
      | None => (NotFound, st)
      | Some payment =>
          if denied u (pay_userId payment) then (AccessDenied, st)
          else
            match updatePayment id data st with
            | None => (Failed, st)
            | Some (updatedPayment, st1) => (Updated updatedPayment, st1)
            end
      end
  end.

(** The status update of the delete route, after the delete. *)
Definition reconcile_deleted (payment : Payment) (st : Store) : Store :=
  match getInvoice (pay_invoiceId payment) st with
  | Some invoice =>
      if Status_eqb (inv_status invoice) paid then
        let remainingPayments := getPaymentsByInvoice (inv_id invoice) st in
        let totalPaid := sumPayments remainingPayments in
        if (totalPaid <? Number_of_decimal (inv_amount invoice))%float
        then updateInvoice (inv_id invoice) pending st
        else st
      else st
  | None => st
  end.

(** [DELETE /api/payments/:id] *)
Definition delete_payment (user : option User) (id : Z) (st : Store)
  : Response * Store :=
  match user with
  | None => (NotAuthenticated, st)
  | Some u =>
      match getPayment id st with
      | None => (NotFound, st)
      | Some payment =>
          if denied u (pay_userId payment) then (AccessDenied, st)
          else (Deleted, reconcile_deleted payment (deletePayment id st))
      end
  end.

(** The three mutations of the payment set. *)
Inductive PaymentCall :=
| Post (body : PaymentBody)
| Put (id : Z) (data : PartialPayment)
| Delete (id : Z).

Definition handle (user : option User) (c : PaymentCall) (st : Store)
  : Response * Store :=
  match c with
  | Post body => post_payment user body st
  | Put id data => put_payment user id data st
  | Delete id => delete_payment user id st
  end.

(** [GET /api/dashboard] *)
Definition get_dashboard (user : option User) (st : Store) : Response :=
  match user with
  | None => NotAuthenticated
  | Some u =>
      let userId := if is_admin u then None else Some (user_id u) in
      let invoices := getInvoices userId st in
      let payments := getPayments userId st in
      let totalRevenue :=
        fold_left (fun sum inv => (sum + Number_of_decimal (inv_amount inv))%float)
                  invoices zero in
      let pendingInvoices :=
        List.length (filter (fun inv => Status_eqb (inv_status inv) pending) invoices) in
      let totalPayments :=
        fold_left (fun sum payment => (sum + Number_of_decimal (pay_amount payment))%float)
                  payments zero in
      let outstandingBalance := (totalRevenue - totalPayments)%float in
      Dashboard {| totalRevenue := totalRevenue;
                   pendingInvoices := pendingInvoices;
                   totalPayments := totalPayments;
                   outstandingBalance := outstandingBalance |}
  end.

End Routes.

(** ** The report data ([client/src/pages/reports-page.tsx]) *)

Module Reports.
Import JsNumber Schema.

(** The local calendar fields of a JavaScript [Date]; [month] runs from
    0 to 11.  The time of day plays no part in the report. *)
Record JsDate := { year : Z; month : Z; day : Z }.

Definition is_leap (y : Z) : bool :=
  andb (y mod 4 =? 0) (orb (negb (y mod 100 =? 0)) (y mod 400 =? 0)).

Definition days_in_month (y m : Z) : Z :=
  if m =? 1 then (if is_leap y then 29 else 28)
  else if orb (orb (m =? 3) (m =? 5)) (orb (m =? 8) (m =? 10)) then 30
  else 31.

(** [d.setMonth(m)]: the month is brought into range by moving whole
    years, the day of the month is kept, and days past the end of the
    month run over into the next one. *)
Definition setMonth (d : JsDate) (m : Z) : JsDate :=
  let y := year d + m / 12 in
  let mo := m mod 12 in
  let len := days_in_month y mo in
  if day d <=? len then {| year := y; month := mo; day := day d |}
  else if mo =? 11 then {| year := y + 1; month := 0; day := day d - len |}
  else {| year := y; month := mo + 1; day := day d - len |}.

(** Where and when the page runs: the current local date, and whether
    local time is behind UTC. *)
Record Clock := { today : JsDate; behind_utc : bool }.

Definition day_before (d : JsDate) : JsDate :=
  if 1 <? day d then {| year := year d; month := month d; day := day d - 1 |}
  else if month d =? 0 then {| year := year d - 1; month := 11; day := 31 |}
  else {| year := year d; month := month d - 1;
          day := days_in_month (year d) (month d - 1) |}.

(** [new Date(s)] for the text [s] of a [date] column.  A date without a
    time denotes midnight UTC; read in local time that instant falls on
    the same day, or on the day before where local time is behind UTC. *)
Definition new_Date (clock : Clock) (s : IsoDate) : JsDate :=
  let utc := {| year := iso_year s; month := iso_month s - 1; day := iso_day s |} in
  if behind_utc clock then day_before utc else utc.

Definition months : list string :=
  ["Jan"; "Feb"; "Mar"; "Apr"; "May"; "Jun";
   "Jul"; "Aug"; "Sep"; "Oct"; "Nov"; "Dec"]%string.

(** One element of [revenueData]. *)
Record DataPoint := {
  name : string;
  revenue : option string;
  expenses : option string;
  payments : option string
}.

Definition monthsCount (reportPeriod : string) : nat :=
  if String.eqb reportPeriod "last_12_months" then 12%nat
  else if String.eqb reportPeriod "last_3_months" then 3%nat
  else 6%nat.

Definition in_month (clock : Clock) (m y : Z) (s : IsoDate) : bool :=
  let d := new_Date clock s in
  andb (month d =? m) (year d =? y).

(** [monthInvoices.reduce((sum, inv) => sum + Number(inv.amount), 0)] *)
Definition monthRevenue (clock : Clock) (m y : Z) (invoices : list Invoice) : float :=
  fold_left (fun sum inv => (sum + Number_of_decimal (inv_amount inv))%float)
            (filter (fun invoice => in_month clock m y (inv_date invoice)) invoices)
            zero.

Definition monthPaymentTotal (clock : Clock) (m y : Z) (payments : list Payment)
  : float :=
  fold_left (fun sum payment => (sum + Number_of_decimal (pay_amount payment))%float)
            (filter (fun payment => in_month clock m y (pay_date payment)) payments)
            zero.

(** The body of the loop for index [i]; [r] is what [Math.random()]
    returns in this iteration. *)
Definition dataPoint (clock : Clock) (startDate : JsDate)
                     (invoices : list Invoice) (payments : list Payment)
                     (i : nat) (r : float) : DataPoint :=
  let monthDate := setMonth startDate (month startDate + Z.of_nat i) in
  let m := month monthDate in
  let y := year monthDate in
  let rev := monthRevenue clock m y invoices in
  let randomFactor := (of_ratio false 6 10 + r * of_ratio false 2 10)%float in
  let simulatedExpenses := (rev * randomFactor)%float in
  {| name := nth (Z.to_nat m) months ""%string;
     revenue := toFixed2 rev;
     expenses := toFixed2 simulatedExpenses;
     payments := toFixed2 (monthPaymentTotal clock m y payments) |}.

(** [calculateReportData].  The queries deliver [invoices] and
    [payments] ([None] while undefined) and their loading flags;
    [random i] is the value of the [i]-th call of [Math.random()]. *)
Definition calculateReportData
    (invoices : option (list Invoice)) (payments : option (list Payment))
    (isLoadingInvoices isLoadingPayments : bool)
    (reportPeriod : string) (clock : Clock) (random : nat -> float)
  : option (list DataPoint) :=
  match invoices, payments with
  | Some invs, Some pays =>
      if orb isLoadingInvoices isLoadingPayments then None
      else
        let n := monthsCount reportPeriod in
        let currentDate := today clock in
        let startDate :=
          setMonth (today clock) (month currentDate - (Z.of_nat n - 1)) in
        Some (map (fun i => dataPoint clock startDate invs pays i (random i))
                  (seq 0 n))
  | _, _ => None
  end.

End Reports.

(** ** The rules as the specification words them

    These definitions follow the text of the specification, not the
    code: amounts are exact numbers of minor units.  They are compared
    with the code below. *)

Module Spec.
Import Schema.

(** Section 4.4, step 1: the sum of the amounts of the payments, each
    payment counted once. *)
Definition total_paid (payments_of_invoice : list Payment) : Z :=
  fold_right Z.add 0 (map pay_amount payments_of_invoice).

(** Section 4.4, steps 2 and 3. *)
Definition derive_status (invoice_amount : decimal) (total : Z) (s : Status)
  : Status :=
  if andb (invoice_amount <=? total) (negb (Status_eqb s paid)) then paid
  else if andb (total <? invoice_amount) (Status_eqb s paid) then pending
  else s.

(** Section 4.1, [fromDecimal]: the decimal [m / 10^k] in minor units,
    rounded to the nearest one, a tie going up. *)
Definition fromDecimal_minor_units (m : Z) (k : Z) : Z :=
  (2 * (m * 100) + 10 ^ k) / (2 * 10 ^ k).

(** Section 4.5, the statistics of the dashboard, in minor units: the
    sum of all invoice amounts, the number of pending invoices, the sum
    of all payment amounts, and the first sum minus the second. *)
Definition totalRevenue (all_invoices : list Invoice) : Z :=
  fold_right Z.add 0 (map inv_amount all_invoices).

Definition pendingInvoices (all_invoices : list Invoice) : nat :=
  List.length (filter (fun i => Status_eqb (inv_status i) pending) all_invoices).

Definition totalPayments (all_payments : list Payment) : Z :=
  fold_right Z.add 0 (map pay_amount all_payments).

Definition outstandingBalance (all_invoices : list Invoice)
                              (all_payments : list Payment) : Z :=
  totalRevenue all_invoices - totalPayments all_payments.

End Spec.

(** ** Concrete ledgers used in the examples *)

Module Examples.
Import JsNumber Schema Storage Routes Reports.

Definition alice : User := {| user_id := 1; user_role := accountant |}.

Definition march (d : Z) : IsoDate :=
  {| iso_year := 2024; iso_month := 3; iso_day := d |}.

Definition invoice_of (id : Z) (a : decimal) (s : Status) (d : IsoDate) : Invoice :=
  {| inv_id := id; inv_amount := a; inv_date := d; inv_status := s;
     inv_userId := 1 |}.

Definition payment_of (id : Z) (a : decimal) : Payment :=
  {| pay_id := id; pay_invoiceId := 1; pay_amount := a; pay_date := march 10;
     pay_receiptGenerated := false; pay_userId := 1 |}.

(** One invoice, number 1, and payments against it. *)
Definition ledger (a : decimal) (s : Status) (paid_amounts : list decimal) : Store :=
  {| invoices := [invoice_of 1 a s (march 10)];
     Storage.payments :=
       map (fun k => payment_of (Z.of_nat (S k)) (nth k paid_amounts 0))
           (seq 0 (List.length paid_amounts));
     next_payment_id := Z.of_nat (S (List.length paid_amounts)) |}.

Definition pay (a : decimal) (extra : list (string * string)) : PaymentBody :=
  {| body_invoiceId := 1; body_amount := Some a; body_date := Some (march 10);
     body_receiptGenerated := None; body_extra := extra |}.

Definition new_amount (a : decimal) : PartialPayment :=
  {| part_invoiceId := None; part_amount := Some a; part_date := None;
     part_receiptGenerated := None; part_userId := None |}.

Definition status_of_invoice_1 (st : Store) : option Status :=
  option_map inv_status (getInvoice 1 st).

(** The store after [alice] has made the calls, one after the other. *)
Definition after (calls : list PaymentCall) (st : Store) : Store :=
  fold_left (fun s c => snd (handle (Some alice) c s)) calls st.

(** Mid March 2024, seen from a zone ahead of UTC and from one behind. *)
Definition mid_march : JsDate := {| year := 2024; month := 2; day := 15 |}.
Definition clock_east : Clock := {| today := mid_march; behind_utc := false |}.
Definition clock_west : Clock := {| today := mid_march; behind_utc := true |}.

(** Scenario E: three invoices dated in March 2024. *)
Definition three_invoices : list Invoice :=
  [invoice_of 1 10000 pending (march 1);
   invoice_of 2 25050 pending (march 10);
   invoice_of 3 4950 pending (march 20)].

(** 2225 invoices of 99,999,999.99 each, all dated 10 March 2024. *)
Definition many_invoices : list Invoice :=
  map (fun k => invoice_of (Z.of_nat k) 9999999999 pending (march 10))
      (seq 1 2225).

Definition first_one (i : Invoice) : bool := inv_id i =? 1.

(** Two invoices of 100.10 and 200.20 and one payment of 300.30. *)
Definition settled_ledger : Store :=
  {| invoices := [invoice_of 1 10010 paid (march 1);
                  invoice_of 2 20020 pending (march 10)];
     Storage.payments := [payment_of 1 30030];
     next_payment_id := 2 |}.

(** The invoices of [many_invoices] and no payment. *)
Definition large_ledger : Store :=
  {| invoices := many_invoices; Storage.payments := []; next_payment_id := 1 |}.

Definition dashboard_of (st : Store) : option DashboardStats :=
  match get_dashboard (Some alice) st with
  | Dashboard stats => Some stats
  | _ => None
  end.

Definition revenues (clock : Clock) (invoices : list Invoice)
  : option (list (option string)) :=
  option_map (map revenue)
    (calculateReportData (Some invoices) (Some []) false false
                         "last_3_months" clock (fun _ => zero)).

End Examples.

(** ** A reconciliation pass keyed by the invoice

    The create route reads the invoice, then runs its status update.  A
    pass that is run again reads the invoice again. *)

Module Passes.
Import Schema Storage Routes.

Definition created_pass (invoiceId : Z) (payment : Payment) (st : Store) : Store :=
  match getInvoice invoiceId st with
  | Some invoice => reconcile_created invoice payment st
  | None => st
  end.

(** What remains true of an overdue invoice [id] in the store [st'] left by
    [call]: it is stored, it is not pending, and it is overdue still
    unless [call] created a payment against it and left it paid. *)
Definition kept (id : Z) (call : PaymentCall) (st' : Store) : Prop :=
  exists inv',
    getInvoice id st' = Some inv' /\
    inv_status inv' <> pending /\
    (inv_status inv' = overdue \/
     (inv_status inv' = paid /\
      exists body, call = Post body /\ body_invoiceId body = id)).

End Passes.

(** ** Currencies, conversion and tax ([client/src/lib/currency-service.ts]) *)

Module CurrencyService.
Import JsNumber Money.

Record CurrencyInfo := { info_code : string; info_name : string; info_symbol : string }.

Definition usDollar : CurrencyInfo :=
  {| info_code := "USD"; info_name := "US Dollar"; info_symbol := "$" |}.

Definition supportedCurrencies : list CurrencyInfo :=
  [ usDollar;
    {| info_code := "EUR"; info_name := "Euro"; info_symbol := "€" |};
    {| info_code := "GBP"; info_name := "British Pound"; info_symbol := "£" |};
    {| info_code := "CAD"; info_name := "Canadian Dollar"; info_symbol := "CA$" |};
    {| info_code := "AUD"; info_name := "Australian Dollar"; info_symbol := "A$" |};
    {| info_code := "JPY"; info_name := "Japanese Yen"; info_symbol := "¥" |};
    {| info_code := "CNY"; info_name := "Chinese Yuan"; info_symbol := "¥" |};
    {| info_code := "INR"; info_name := "Indian Rupee"; info_symbol := "₹" |};
    {| info_code := "BRL"; info_name := "Brazilian Real"; info_symbol := "R$" |};
    {| info_code := "CHF"; info_name := "Swiss Franc"; info_symbol := "CHF" |} ]%string.

(** [supportedCurrencies.find(c => c.code === code) || supportedCurrencies[0]] *)
Definition getCurrencyByCode (code : string) : CurrencyInfo :=
  match find (fun c => String.eqb (info_code c) code) supportedCurrencies with
  | Some c => c
  | None => hd usDollar supportedCurrencies
  end.

(** The table [exchangeRates]; each rate is the binary64 value of its
    decimal literal. *)
Definition exchangeRates : list (string * float) :=
  [ ("USD", of_ratio false 1 1);
    ("EUR", of_ratio false 92 100);
    ("GBP", of_ratio false 79 100);
    ("CAD", of_ratio false 136 100);
    ("AUD", of_ratio false 151 100);
    ("JPY", of_ratio false 15189 100);
    ("CNY", of_ratio false 721 100);
    ("INR", of_ratio false 8356 100);
    ("BRL", of_ratio false 510 100);
    ("CHF", of_ratio false 91 100) ]%string.

(** [exchangeRates[code]] as an operand of arithmetic: a code without an
    entry yields [undefined], which arithmetic reads as [NaN]. *)
Definition rate (code : string) : float :=
  match find (fun e => String.eqb (fst e) code) exchangeRates with
  | Some e => snd e
  | None => nan
  end.

Definition numeric (amount : Amount) : float :=
  match amount with
  | AmountString s => parseFloat s
  | AmountNumber x => x
  end.

(** [convertCurrency].  With equal codes the amount is returned as text:
    a string as it is; the text of a number is not modelled ([None]).
    Otherwise the result is [toFixed(2)] of the converted number. *)
Definition convertCurrency (amount : Amount) (fromCurrency toCurrency : string)
  : option string :=
  if String.eqb fromCurrency toCurrency then
    match amount with
    | AmountString s => Some s
    | AmountNumber _ => None
    end
  else
    let numericAmount := numeric amount in
    let amountInUSD := (numericAmount / rate fromCurrency)%float in
    let amountInTargetCurrency := (amountInUSD * rate toCurrency)%float in
    toFixed2 amountInTargetCurrency.

(** [calculateTax] *)
Definition calculateTax (amount : Amount) (taxRate : float) : option string :=
  let numericAmount := numeric amount in
  let taxAmount := (numericAmount * (taxRate / of_Z 100))%float in
  toFixed2 taxAmount.

(** [calculateTotalWithTax] *)
Definition calculateTotalWithTax (amount : Amount) (taxRate : float) : option string :=
  let numericAmount := numeric amount in
  let tax := (numericAmount * (taxRate / of_Z 100))%float in
  let total := (numericAmount + tax)%float in
  toFixed2 total.

(** Whether a code has an entry in [supportedCurrencies], in
    [exchangeRates]. *)
Definition listed (code : string) : bool :=
  existsb (fun c => String.eqb (info_code c) code) supportedCurrencies.

Definition has_rate (code : string) : bool :=
  existsb (fun e => String.eqb (fst e) code) exchangeRates.

(** Whether a JavaScript number is finite. *)
Definition isFinite (x : float) : bool :=
  match Prim2SF x with
  | S754_zero _ | S754_finite _ _ _ => true
  | _ => false
  end.

End CurrencyService.

(** ** The invoice routes and the read routes ([server/routes.ts],
       [server/storage.ts]) *)

Module InvoiceRoutes.
Import JsNumber Schema Storage Routes.

(** [Partial<InsertInvoice>], for the columns of [Invoice] modelled;
    [pinv_other] tells whether the data set one of the other columns
    (title, client name, client id). *)
Record PartialInvoice := {
  pinv_amount : option decimal;
  pinv_date : option IsoDate;
  pinv_status : option Status;
  pinv_userId : option Z;
  pinv_other : bool
}.

Definition sets_no_invoice_column (d : PartialInvoice) : bool :=
  match pinv_amount d, pinv_date d, pinv_status d, pinv_userId d with
  | None, None, None, None => negb (pinv_other d)
  | _, _, _, _ => false
  end.

Definition apply_partial_invoice (d : PartialInvoice) (i : Invoice) : Invoice :=
  {| inv_id := inv_id i;
     inv_amount := or_else (pinv_amount d) (inv_amount i);
     inv_date := or_else (pinv_date d) (inv_date i);
     inv_status := or_else (pinv_status d) (inv_status i);
     inv_userId := or_else (pinv_userId d) (inv_userId i) |}.

(** [updateInvoice(id, invoice)] in general: the new row when one was
    updated, and the store.  The call fails when the data set no column
    (drizzle's [set] throws "No values to set") and when a new amount
    does not fit the column; the updated row comes after the rows that
    were left alone. *)
Definition updateInvoiceWith (id : Z) (invoice : PartialInvoice) (st : Store)
  : option (option Invoice * Store) :=
  if sets_no_invoice_column invoice then None
  else if fits_decimal_10_2 (or_else (pinv_amount invoice) 0) then
    let st' :=
      set_invoices st
        (update_rows (fun i => inv_id i =? id) (apply_partial_invoice invoice)
                     (invoices st)) in
    Some (getInvoice id st', st')
  else None.

(** [deleteInvoice(id)]: only the table of invoices is touched. *)
Definition deleteInvoice (id : Z) (st : Store) : Store :=
  set_invoices st (filter (fun i => negb (inv_id i =? id)) (invoices st)).

(** What a route answers: a status without a body, or a body of type [A]
    with status 200. *)
Inductive Reply (A : Type) :=
| Reply401
| Reply403
| Reply404
| ReplyFailed
| Reply204
| Reply200 (body : A).
Arguments Reply401 {A}.
Arguments Reply403 {A}.
Arguments Reply404 {A}.
Arguments ReplyFailed {A}.
Arguments Reply204 {A}.
Arguments Reply200 {A} body.

(** [req.user?.role === "admin" ? undefined : req.user?.id] *)
Definition scope (u : User) : option Z :=
  if is_admin u then None else Some (user_id u).

(** [GET /api/invoices] *)
Definition get_invoices (user : option User) (st : Store) : Reply (list Invoice) :=
  match user with
  | None => Reply401
  | Some u => Reply200 (getInvoices (scope u) st)
  end.

(** [GET /api/invoices/:id] *)
Definition get_invoice (user : option User) (id : Z) (st : Store) : Reply Invoice :=
  match user with
  | None => Reply401
  | Some u =>
      match getInvoice id st with
      | None => Reply404
      | Some invoice =>
          if denied u (inv_userId invoice) then Reply403 else Reply200 invoice
      end
  end.

(** [PUT /api/invoices/:id].  The body is typed here, so the partial schema
    accepts it; the route has no step after [updateInvoice] but the
    response. *)
Definition put_invoice (user : option User) (id : Z) (data : PartialInvoice)
                       (st : Store) : Reply (option Invoice) * Store :=
  match user with
  | None => (Reply401, st)
  | Some u =>
      match getInvoice id st with
      | None => (Reply404, st)
      | Some invoice =>
          if denied u (inv_userId invoice) then (Reply403, st)
          else
            match updateInvoiceWith id data st with
            | None => (ReplyFailed, st)
            | Some (updatedInvoice, st1) => (Reply200 updatedInvoice, st1)
            end
      end
  end.

(** [DELETE /api/invoices/:id] *)
Definition delete_invoice (user : option User) (id : Z) (st : Store)
  : Reply unit * Store :=
  match user with
  | None => (Reply401, st)
  | Some u =>
      match getInvoice id st with
      | None => (Reply404, st)
      | Some invoice =>
          if denied u (inv_userId invoice) then (Reply403, st)
          else (Reply204, deleteInvoice id st)
      end
  end.

(** [GET /api/payments] *)
Definition get_payments (user : option User) (st : Store) : Reply (list Payment) :=
  match user with
  | None => Reply401
  | Some u => Reply200 (getPayments (scope u) st)
  end.

(** [GET /api/payments/invoice/:invoiceId] *)
Definition get_payments_of_invoice (user : option User) (invoiceId : Z) (st : Store)
  : Reply (list Payment) :=
  match user with
  | None => Reply401
  | Some u =>
      match getInvoice invoiceId st with
      | None => Reply404
      | Some invoice =>
          if denied u (inv_userId invoice) then Reply403
          else Reply200 (getPaymentsByInvoice invoiceId st)
      end
  end.

(** [GET /api/payments/:id] *)
Definition get_payment (user : option User) (id : Z) (st : Store) : Reply Payment :=
  match user with
  | None => Reply401
  | Some u =>
      match getPayment id st with
      | None => Reply404
      | Some payment =>
          if denied u (pay_userId payment) then Reply403 else Reply200 payment
      end
  end.

(** The owner a payment call is checked against: the owner of the invoice
    for a creation, the owner of the payment for an update or a delete. *)
Definition checked_owner (c : PaymentCall) (st : Store) : option Z :=
  match c with
  | Post body => option_map inv_userId (getInvoice (body_invoiceId body) st)
  | Put id _ => option_map pay_userId (getPayment id st)
  | Delete id => option_map pay_userId (getPayment id st)
  end.

Definition succeeded (r : Response) : bool :=
  match r with
  | Created _ | Updated _ | Deleted => true
  | _ => false
  end.

(** An invoice with its status blanked. *)
Definition without_status (i : Invoice) : Invoice := with_status pending i.

(** A partial payment that sets the invoice reference and nothing else. *)
Definition move_to (invoiceId : Z) : PartialPayment :=
  {| part_invoiceId := Some invoiceId; part_amount := None; part_date := None;
     part_receiptGenerated := None; part_userId := None |}.

(** The primary key of [payments]: no id occurs twice, and the sequence
    is ahead of every id in the table. *)
Definition keys_ok (st : Store) : Prop :=
  NoDup (map pay_id (payments st))
  /\ Forall (fun p => pay_id p < next_payment_id st) (payments st).

End InvoiceRoutes.

(** ** The user routes ([server/routes.ts], [server/storage.ts]) *)

Module Users.
Import Schema Routes.

(** Rows of [users]. *)
Record UserRow := {
  row_id : Z;
  row_name : string;
  row_email : string;
  row_password : string;
  row_role : Role
}.

Definition getUser (id : Z) (users : list UserRow) : option UserRow :=
  find (fun u => row_id u =? id) users.

(** [deleteUser(id)]: the rows are deleted and [true] is returned. *)
Definition deleteUser (id : Z) (users : list UserRow) : bool * list UserRow :=
  (true, filter (fun u => negb (row_id u =? id)) users).

Inductive DeleteUserReply :=
| NotSignedIn            (* 401 *)
| AdminRequired          (* 403 *)
| OwnAccount             (* 400, "Cannot delete your own account" *)
| NoSuchUser             (* 404 *)
| DeleteFailed           (* 500 *)
| UserDeleted.           (* 204 *)

(** [DELETE /api/admin/users/:id] *)
Definition delete_user (caller : option User) (userId : Z) (users : list UserRow)
  : DeleteUserReply * list UserRow :=
  match caller with
  | None => (NotSignedIn, users)
  | Some c =>
      if negb (is_admin c) then (AdminRequired, users)
      else if userId =? user_id c then (OwnAccount, users)
      else
        match getUser userId users with
        | None => (NoSuchUser, users)
        | Some _ =>
            let (deleted, users') := deleteUser userId users in
            if negb deleted then (DeleteFailed, users')
            else (UserDeleted, users')
        end
  end.

End Users.


(** ** The calendar months of the report, counted from year 0 *)

Module ReportMonths.
Import JsNumber Schema Reports.

(** The month the bucket of index [i] should cover when [n] buckets end
    at the current month: [12 * year + month], counted back from today. *)
Definition month_number (clock : Clock) (n i : nat) : Z :=
  12 * year (today clock) + month (today clock) - (Z.of_nat n - 1) + Z.of_nat i.

(** Whether the date [d], as it is stored, lies in the calendar month
    numbered [k]: month [k mod 12 + 1] of the year [k / 12]. *)
Definition dated_in (k : Z) (d : IsoDate) : bool :=
  andb (iso_month d =? k mod 12 + 1) (iso_year d =? k / 12).

(** The amounts, one after the other from 0, as JavaScript numbers. *)
Definition running_total (amounts : list decimal) : float :=
  fold_left (fun sum a => (sum + Number_of_decimal a)%float) amounts zero.

(** The data point of the calendar month numbered [k]: the name of the
    month, and the running totals of the invoices and of the payments
    whose stored date lies in it. *)
Definition point_of_month (invoices : list Invoice) (payments : list Payment)
                          (k : Z) (r : float) : DataPoint :=
  let rev :=
    running_total
      (map inv_amount (filter (fun i => dated_in k (inv_date i)) invoices)) in
  {| name := nth (Z.to_nat (k mod 12)) months ""%string;
     revenue := toFixed2 rev;
     expenses := toFixed2 (rev * (of_ratio false 6 10 + r * of_ratio false 2 10))%float;
     Reports.payments :=
       toFixed2
         (running_total
            (map pay_amount (filter (fun p => dated_in k (pay_date p)) payments))) |}.

End ReportMonths.

(** ** A ledger of two accountants and an administrator *)

Module TwoUsers.
Import JsNumber Schema Storage Routes Examples.

Definition bob : User := {| user_id := 2; user_role := accountant |}.
Definition root : User := {| user_id := 9; user_role := admin |}.

(** Alice owns invoice 1, of 100.00 and paid, with a payment of 60.00 of
    her own and one of 30.00 entered by the administrator; Bob owns
    invoice 2, of 50.00 and pending, and a payment of 20.00 against it. *)
Definition shared_ledger : Store :=
  {| invoices :=
       [ invoice_of 1 10000 paid (march 10);
         {| inv_id := 2; inv_amount := 5000; inv_date := march 10;
            inv_status := pending; inv_userId := 2 |} ];
     Storage.payments :=
       [ payment_of 1 6000;
         {| pay_id := 2; pay_invoiceId := 2; pay_amount := 2000; pay_date := march 10;
            pay_receiptGenerated := false; pay_userId := 2 |};
         {| pay_id := 3; pay_invoiceId := 1; pay_amount := 3000; pay_date := march 10;
            pay_receiptGenerated := false; pay_userId := 9 |} ];
     next_payment_id := 4 |}.

End TwoUsers.

(** * Properties *)

Import JsNumber Schema Storage Routes.

(** ** Updated rows

    Facts about [update_rows] on a table whose rows have a key that the
    update keeps. *)

Section UpdatedRows.

Context {A : Type} (key : A -> Z) (change : A -> A).
Hypothesis key_kept : forall r, key (change r) = key r.

Lemma find_app {B : Type} (p : B -> bool) (l1 l2 : list B) :
  find p (l1 ++ l2)
  = match find p l1 with Some x => Some x | None => find p l2 end.
Proof.
  induction l1 as [|x l1 IH]; simpl; [reflexivity|].
  now destruct (p x).
Qed.

Lemma find_among_the_others (id id' : Z) (l : list A) :
  find (fun r => key r =? id) (filter (fun r => negb (key r =? id')) l)
  = if id =? id' then None else find (fun r => key r =? id) l.
Proof.
  induction l as [|r l IH]; simpl; [now destruct (id =? id')|].
  destruct (key r =? id') eqn:E'; simpl.
  - apply Z.eqb_eq in E'. rewrite E', (Z.eqb_sym id' id).
    now destruct (id =? id').
  - destruct (key r =? id) eqn:E; [|exact IH].
    apply Z.eqb_eq in E. rewrite E in E'. now rewrite E'.
Qed.

Lemma find_among_the_updated (id id' : Z) (l : list A) :
  find (fun r => key r =? id) (map change (filter (fun r => key r =? id') l))
  = if id =? id' then option_map change (find (fun r => key r =? id) l) else None.
Proof.
  induction l as [|r l IH]; simpl; [now destruct (id =? id')|].
  destruct (key r =? id') eqn:E'; simpl.
  - rewrite key_kept. apply Z.eqb_eq in E'. rewrite E', (Z.eqb_sym id' id).
    destruct (id =? id'); [reflexivity | exact IH].
  - destruct (key r =? id) eqn:E; [|exact IH].
    apply Z.eqb_eq in E. rewrite E in E'. rewrite E' in IH |- *. exact IH.
Qed.

Lemma find_update_rows (id id' : Z) (l : list A) :
  find (fun r => key r =? id) (update_rows (fun r => key r =? id') change l)
  = if id =? id' then option_map change (find (fun r => key r =? id) l)
    else find (fun r => key r =? id) l.
Proof.
  unfold update_rows.
  rewrite find_app, find_among_the_others, find_among_the_updated.
  destruct (id =? id'); [reflexivity|].
  now destruct (find _ l).
Qed.

Lemma filter_out_update_rows (id : Z) (l : list A) :
  filter (fun r => negb (key r =? id)) (update_rows (fun r => key r =? id) change l)
  = filter (fun r => negb (key r =? id)) l.
Proof.
  unfold update_rows. rewrite filter_app.
  assert (H1 : forall l0 : list A,
             filter (fun r => negb (key r =? id))
                    (filter (fun r => negb (key r =? id)) l0)
             = filter (fun r => negb (key r =? id)) l0).
  { induction l0 as [|r l0 IH]; simpl; [reflexivity|].
    destruct (key r =? id) eqn:E; simpl; [exact IH|].
    rewrite E. simpl. now rewrite IH. }
  assert (H2 : forall l0 : list A,
             filter (fun r => negb (key r =? id))
                    (map change (filter (fun r => key r =? id) l0)) = []).
  { induction l0 as [|r l0 IH]; simpl; [reflexivity|].
    destruct (key r =? id) eqn:E; simpl; [|exact IH].
    rewrite key_kept, E. simpl. exact IH. }
  now rewrite H1, H2, app_nil_r.
Qed.

Lemma update_rows_permutes {B : Type} (cond : A -> bool) (g : A -> B)
      (l : list A) :
  (forall r, g (change r) = g r) ->
  Permutation (map g (update_rows cond change l)) (map g l).
Proof.
  intros Hg. unfold update_rows.
  induction l as [|r l IH]; simpl; [constructor|].
  destruct (cond r); simpl.
  - rewrite map_app in *. simpl. rewrite Hg.
    apply Permutation_sym, Permutation_cons_app, Permutation_sym. exact IH.
  - now constructor.
Qed.

Lemma update_rows_twice (id : Z) (l : list A) :
  (forall r, change (change r) = change r) ->
  update_rows (fun r => key r =? id) change (update_rows (fun r => key r =? id) change l)
  = update_rows (fun r => key r =? id) change l.
Proof.
  intros Hidem. unfold update_rows at 1.
  rewrite filter_out_update_rows.
  unfold update_rows. f_equal. rewrite filter_app.
  assert (H1 : forall l0 : list A,
             filter (fun r => key r =? id)
                    (filter (fun r => negb (key r =? id)) l0) = []).
  { induction l0 as [|r l0 IH]; simpl; [reflexivity|].
    destruct (key r =? id) eqn:E; simpl; [exact IH|].
    now rewrite E. }
  assert (H2 : forall l0 : list A,
             filter (fun r => key r =? id)
                    (map change (filter (fun r => key r =? id) l0))
             = map change (filter (fun r => key r =? id) l0)).
  { induction l0 as [|r l0 IH]; simpl; [reflexivity|].
    destruct (key r =? id) eqn:E; simpl; [|exact IH].
    rewrite key_kept, E. now rewrite IH. }
  rewrite H1, H2. simpl. rewrite map_map. apply map_ext. exact Hidem.
Qed.

End UpdatedRows.

(** ** The storage layer *)

Section StorageFacts.

Lemma Status_eqb_eq (a b : Status) : Status_eqb a b = true <-> a = b.
Proof. destruct a, b; simpl; split; congruence. Qed.

Lemma getInvoice_id (id : Z) (st : Store) (inv : Invoice) :
  getInvoice id st = Some inv -> inv_id inv = id.
Proof.
  unfold getInvoice. intros H.
  apply find_some in H. destruct H as [_ H].
  now apply Z.eqb_eq.
Qed.

Lemma getInvoice_updateInvoice (id id' : Z) (s : Status) (st : Store) :
  getInvoice id (updateInvoice id' s st)
  = if id =? id' then option_map (with_status s) (getInvoice id st)
    else getInvoice id st.
Proof.
  unfold getInvoice, updateInvoice; simpl.
  now apply find_update_rows.
Qed.

Lemma updateInvoice_twice (id : Z) (s : Status) (st : Store) :
  updateInvoice id s (updateInvoice id s st) = updateInvoice id s st.
Proof.
  unfold updateInvoice, set_invoices; simpl. f_equal.
  now apply (update_rows_twice inv_id).
Qed.

Lemma getPaymentsByInvoice_updateInvoice (id id' : Z) (s : Status) (st : Store) :
  getPaymentsByInvoice id (updateInvoice id' s st) = getPaymentsByInvoice id st.
Proof. reflexivity. Qed.

Lemma createPayment_invoices (d : InsertPayment) (st st1 : Store) (p : Payment) :
  createPayment d st = Some (p, st1) -> invoices st1 = invoices st.
Proof.
  unfold createPayment. destruct (fits_decimal_10_2 _); [|discriminate].
  intros H. injection H as _ <-. reflexivity.
Qed.

Lemma updatePayment_invoices (id : Z) (d : PartialPayment) (st st1 : Store)
      (r : option Payment) :
  updatePayment id d st = Some (r, st1) -> invoices st1 = invoices st.
Proof.
  unfold updatePayment. destruct (sets_no_column d); [discriminate|].
  destruct (fits_decimal_10_2 _); [|discriminate].
  intros H. injection H as _ <-. reflexivity.
Qed.

Lemma getInvoice_same_invoices (id : Z) (st st' : Store) :
  invoices st' = invoices st -> getInvoice id st' = getInvoice id st.
Proof. unfold getInvoice. now intros ->. Qed.

End StorageFacts.

(** ** The reconciliation passes of the routes *)

Section Reconciliation.

(** What the create pass does to the invoice it was given. *)
Lemma reconcile_created_cases (invoice : Invoice) (p : Payment) (st : Store) :
  reconcile_created invoice p st = st \/
  (reconcile_created invoice p st = updateInvoice (inv_id invoice) paid st /\
   inv_status invoice <> paid).
Proof.
  unfold reconcile_created.
  destruct (Number_of_decimal (inv_amount invoice) <=? _)%float; simpl; auto.
  destruct (Status_eqb (inv_status invoice) paid) eqn:E; simpl; auto.
  right. split; [reflexivity|].
  intros H. apply Status_eqb_eq in H. congruence.
Qed.

(** The delete pass touches an invoice only when that invoice is the one
    the deleted payment refers to and its status is [paid]. *)
Lemma reconcile_deleted_cases (p : Payment) (st : Store) :
  reconcile_deleted p st = st \/
  (exists invoice,
      getInvoice (pay_invoiceId p) st = Some invoice /\
      inv_status invoice = paid /\
      reconcile_deleted p st = updateInvoice (inv_id invoice) pending st).
Proof.
  unfold reconcile_deleted.
  destruct (getInvoice (pay_invoiceId p) st) as [invoice|] eqn:G; auto.
  destruct (Status_eqb (inv_status invoice) paid) eqn:E; auto.
  destruct (_ <? _)%float; auto.
  right. exists invoice. repeat split. now apply Status_eqb_eq.
Qed.

End Reconciliation.

(** ** Overdue invoices *)

Section Overdue.

Variables (user : option User) (st : Store) (id : Z) (inv : Invoice).
Hypothesis Hinv : getInvoice id st = Some inv.
Hypothesis Hoverdue : inv_status inv = overdue.

Local Lemma kept_unchanged (call : PaymentCall) (st' : Store) :
  invoices st' = invoices st -> Passes.kept id call st'.
Proof using Hinv Hoverdue.
  intros E. exists inv. split.
  - rewrite (getInvoice_same_invoices id st st' E). exact Hinv.
  - split; [congruence | now left].
Qed.

(** A route that returns early leaves the store as it found it. *)
Ltac early_return := now apply kept_unchanged.

Local Lemma post_keeps (body : PaymentBody) :
  Passes.kept id (Post body) (snd (post_payment user body st)).
Proof using Hinv Hoverdue.
  unfold post_payment.
  destruct user as [u|]; [|early_return].
  destruct (getInvoice (body_invoiceId body) st) as [invoice|] eqn:G;
    [|early_return].
  destruct (denied u (inv_userId invoice)); [early_return|].
  destruct (safeParse body (user_id u)) as [data|]; [|early_return].
  destruct (createPayment data st) as [[payment st1]|] eqn:C;
    [|early_return].
  simpl snd.
  pose proof (createPayment_invoices _ _ _ _ C) as E1.
  destruct (reconcile_created_cases invoice payment st1) as [-> | [-> _]].
  - early_return.
  - exists (if id =? inv_id invoice then with_status paid inv else inv).
    rewrite getInvoice_updateInvoice,
            (getInvoice_same_invoices id st st1 E1), Hinv.
    destruct (id =? inv_id invoice) eqn:E; simpl.
    + split; [reflexivity|]. split; [discriminate|].
      right. split; [reflexivity|].
      exists body. split; [reflexivity|].
      apply Z.eqb_eq in E. apply getInvoice_id in G. congruence.
    + split; [reflexivity|]. split; [congruence | now left].
Qed.

Local Lemma put_keeps (pid : Z) (data : PartialPayment) :
  Passes.kept id (Put pid data) (snd (put_payment user pid data st)).
Proof using Hinv Hoverdue.
  unfold put_payment.
  destruct user as [u|]; [|early_return].
  destruct (getPayment pid st) as [payment|]; [|early_return].
  destruct (denied u (pay_userId payment)); [early_return|].
  destruct (updatePayment pid data st) as [[r st1]|] eqn:U;
    [|early_return].
  apply kept_unchanged. exact (updatePayment_invoices _ _ _ _ _ U).
Qed.

Local Lemma delete_keeps (pid : Z) :
  Passes.kept id (Delete pid) (snd (delete_payment user pid st)).
Proof using Hinv Hoverdue.
  unfold delete_payment.
  destruct user as [u|]; [|early_return].
  destruct (getPayment pid st) as [payment|]; [|early_return].
  destruct (denied u (pay_userId payment)); [early_return|].
  simpl snd.
  destruct (reconcile_deleted_cases payment (deletePayment pid st))
    as [-> | (invoice & G & Hpaid & ->)].
  - early_return.
  - exists inv.
    rewrite getInvoice_updateInvoice.
    change (getInvoice id (deletePayment pid st)) with (getInvoice id st).
    change (getInvoice (pay_invoiceId payment) (deletePayment pid st))
      with (getInvoice (pay_invoiceId payment) st) in G.
    destruct (id =? inv_id invoice) eqn:E.
    + exfalso. apply Z.eqb_eq in E.
      pose proof (getInvoice_id _ _ _ G) as Hid.
      rewrite <- Hid, <- E, Hinv in G.
      injection G as ->. congruence.
    + split; [exact Hinv|]. split; [congruence | now left].
Qed.

(** C5: a payment create, update or delete never turns an overdue
    invoice into a pending one.  After any of the three calls the
    invoice is still stored; its status is not [pending]; it is either
    still [overdue], or it is [paid] and the call was the creation of a
    payment against this very invoice. *)
Theorem overdue_never_reopened (call : PaymentCall) :
  exists inv',
    getInvoice id (snd (handle user call st)) = Some inv' /\
    inv_status inv' <> pending /\
    (inv_status inv' = overdue \/
     (inv_status inv' = paid /\
      exists body, call = Post body /\ body_invoiceId body = id)).
Proof using Hinv Hoverdue.
  destruct call as [body | pid data | pid]; simpl handle.
  - apply post_keeps.
  - apply put_keeps.
  - apply delete_keeps.
Qed.

End Overdue.

(** ** Idempotence *)

Section Idempotence.

Variables (invoice : Invoice) (payment : Payment) (st : Store).

Lemma reconcile_created_twice :
reconcile_created invoice payment (reconcile_created invoice payment st)
= reconcile_created invoice payment st.
Proof.
destruct (reconcile_created_cases invoice payment st) as [H | [H _]].
- rewrite H. exact H.
- rewrite H.
  destruct (reconcile_created_cases invoice payment
              (updateInvoice (inv_id invoice) paid st)) as [H' | [H' _]];
    rewrite H'; [reflexivity | apply updateInvoice_twice].
Qed.

Lemma created_pass_twice (invoiceId : Z) :
Passes.created_pass invoiceId payment (Passes.created_pass invoiceId payment st)
= Passes.created_pass invoiceId payment st.
Proof.
unfold Passes.created_pass at 2 3.
destruct (getInvoice invoiceId st) as [inv0|] eqn:G.
- destruct (reconcile_created_cases inv0 payment st) as [H | [H _]]; rewrite H.
  + unfold Passes.created_pass. rewrite G. exact H.
  + unfold Passes.created_pass.
    rewrite getInvoice_updateInvoice, G.
    rewrite (getInvoice_id _ _ _ G), Z.eqb_refl. simpl.
    unfold reconcile_created. simpl.
    rewrite andb_false_r. reflexivity.
- unfold Passes.created_pass. rewrite G. reflexivity.
Qed.

Lemma reconcile_deleted_twice :
reconcile_deleted payment (reconcile_deleted payment st)
= reconcile_deleted payment st.
Proof.
destruct (reconcile_deleted_cases payment st) as [H | (inv0 & G & Hpaid & H)].
- rewrite H. exact H.
- rewrite H.
  destruct (reconcile_deleted_cases payment (updateInvoice (inv_id inv0) pending st))
    as [H' | (inv1 & G' & Hpaid' & _)]; [exact H'|].
  exfalso.
  rewrite getInvoice_updateInvoice, G in G'.
  rewrite (getInvoice_id _ _ _ G), Z.eqb_refl in G'. simpl in G'.
  injection G' as <-. discriminate.
Qed.

(** C6: reconciliation is idempotent.  Running the status update of the
  create route a second time on the store it produced, with the same
  invoice and payment in hand or with the invoice read afresh, and
  running the status update of the delete route a second time, each
  return the store unchanged: no invoice status changes in the second
  pass. *)
Theorem reconciliation_idempotent :
reconcile_created invoice payment (reconcile_created invoice payment st)
= reconcile_created invoice payment st
/\ Passes.created_pass (inv_id invoice) payment
     (Passes.created_pass (inv_id invoice) payment st)
   = Passes.created_pass (inv_id invoice) payment st
/\ reconcile_deleted payment (reconcile_deleted payment st)
   = reconcile_deleted payment st.
Proof.
split; [apply reconcile_created_twice|].
split; [apply created_pass_twice | apply reconcile_deleted_twice].
Qed.

End Idempotence.

(** ** Creating a payment *)

Section Create.

Import Examples.

(** Whatever the ledger, the payments the create route adds up are those
    the invoice had before, then the created payment, then the created
    payment once more: it is read back from the table and appended. *)
Lemma created_payment_counted_twice
      (body : PaymentBody) (userId : Z) (st st1 : Store)
      (invoice : Invoice) (data : InsertPayment) (payment : Payment) :
  getInvoice (body_invoiceId body) st = Some invoice ->
  safeParse body userId = Some data ->
  createPayment data st = Some (payment, st1) ->
  getPaymentsByInvoice (inv_id invoice) st1 ++ [payment]
  = getPaymentsByInvoice (inv_id invoice) st ++ [payment; payment].
Proof.
  intros G P C.
  apply getInvoice_id in G.
  assert (ins_invoiceId data = body_invoiceId body) as Hd.
  { unfold safeParse in P.
    destruct (body_amount body), (body_date body); try discriminate.
    injection P as <-. reflexivity. }
  unfold createPayment in C.
  destruct (fits_decimal_10_2 (ins_amount data)); [|discriminate].
  injection C as <- <-.
  unfold getPaymentsByInvoice. simpl.
  rewrite filter_app. simpl.
  rewrite Hd, G, Z.eqb_refl, <- app_assoc. reflexivity.
Qed.

(** The status update of a successful creation, spelled out. *)
Lemma post_payment_rule
      (u : User) (body : PaymentBody) (st st1 : Store)
      (invoice : Invoice) (data : InsertPayment) (payment : Payment) :
  getInvoice (body_invoiceId body) st = Some invoice ->
  denied u (inv_userId invoice) = false ->
  safeParse body (user_id u) = Some data ->
  createPayment data st = Some (payment, st1) ->
  post_payment (Some u) body st
  = (Created payment,
     if andb (Number_of_decimal (inv_amount invoice)
              <=? sumPayments (getPaymentsByInvoice (inv_id invoice) st
                               ++ [payment; payment]))%float
             (negb (Status_eqb (inv_status invoice) paid))
     then updateInvoice (inv_id invoice) paid st1
     else st1).
Proof.
  intros G D P C.
  unfold post_payment. rewrite G, D, P, C.
  unfold reconcile_created.
  rewrite (created_payment_counted_twice body (user_id u) st st1 invoice data payment G P C).
  reflexivity.
Qed.

(** C1: the first payment of scenario A.  An invoice of 100.00 is pending
    and has no payment; a payment of 60.00 is created.  The invoice then
    has this one payment, of 60.00, and the rule of the specification
    keeps it pending; the route has marked it paid. *)
Theorem first_payment_of_60_marks_invoice_of_100_paid :
  let r := post_payment (Some alice) (pay 6000 []) (ledger 10000 pending []) in
  fst r = Created (payment_of 1 6000)
  /\ map pay_amount (getPaymentsByInvoice 1 (snd r)) = [6000]
  /\ Spec.derive_status 10000 (Spec.total_paid (getPaymentsByInvoice 1 (snd r))) pending
     = pending
  /\ status_of_invoice_1 (snd r) = Some paid.
Proof. vm_compute. repeat split. Qed.

(** Scenario A from start to end: the invoice is paid after the first
    payment already, and stays so after the second. *)
Lemma scenario_A_through_the_routes :
  status_of_invoice_1 (after [Post (pay 6000 [])] (ledger 10000 pending []))
  = Some paid
  /\ status_of_invoice_1
       (after [Post (pay 6000 []); Post (pay 4000 [])] (ledger 10000 pending []))
     = Some paid.
Proof. vm_compute. split; reflexivity. Qed.

End Create.

(** ** Deleting a payment *)

Section Delete.

Import Examples.

(** The status update of a successful deletion, spelled out: the invoice
    of the deleted payment, when it is paid, becomes pending exactly when
    the reduction over its remaining payments is below its amount as a
    JavaScript number. *)
Lemma delete_payment_rule
      (u : User) (id : Z) (st : Store) (payment : Payment) (invoice : Invoice) :
  getPayment id st = Some payment ->
  denied u (pay_userId payment) = false ->
  getInvoice (pay_invoiceId payment) st = Some invoice ->
  inv_status invoice = paid ->
  delete_payment (Some u) id st
  = (Deleted,
     if (sumPayments (getPaymentsByInvoice (inv_id invoice) (deletePayment id st))
         <? Number_of_decimal (inv_amount invoice))%float
     then updateInvoice (inv_id invoice) pending (deletePayment id st)
     else deletePayment id st).
Proof.
  intros P D G S.
  unfold delete_payment. rewrite P, D.
  unfold reconcile_deleted.
  change (getInvoice (pay_invoiceId payment) (deletePayment id st))
    with (getInvoice (pay_invoiceId payment) st).
  rewrite G, S. reflexivity.
Qed.

(** Scenario B: a paid invoice of 100.00 whose single payment of 100.00
    is deleted is pending again. *)
Lemma deleting_the_only_payment_reopens :
  let r := delete_payment (Some alice) 1 (ledger 10000 paid [10000]) in
  fst r = Deleted /\ status_of_invoice_1 (snd r) = Some pending.
Proof. vm_compute. split; reflexivity. Qed.

(** The ledger of the next theorem is reached through the routes: three
    payments are created against a pending invoice of 300.30. *)
Lemma covered_invoice_through_the_routes :
  after [Post (pay 10010 []); Post (pay 20020 []); Post (pay 5000 [])]
        (ledger 30030 pending [])
  = ledger 30030 paid [10010; 20020; 5000].
Proof. vm_compute. reflexivity. Qed.

(** C2: a paid invoice of 300.30 has the payments 100.10, 200.20 and
    50.00, and the payment of 50.00 is deleted.  The remaining payments
    sum to 300.30, which is not less than the amount, and the rule of the
    specification keeps the invoice paid; the route has set it to
    pending, since 100.1 + 200.2 is 300.29999999999995 in binary64. *)
Theorem delete_reopens_invoice_covered_in_full :
  let r := delete_payment (Some alice) 3 (ledger 30030 paid [10010; 20020; 5000]) in
  fst r = Deleted
  /\ map pay_amount (getPaymentsByInvoice 1 (snd r)) = [10010; 20020]
  /\ Spec.total_paid (getPaymentsByInvoice 1 (snd r)) = 30030
  /\ Spec.derive_status 30030 (Spec.total_paid (getPaymentsByInvoice 1 (snd r))) paid
     = paid
  /\ (sumPayments (getPaymentsByInvoice 1 (snd r)) <? Number_of_decimal 30030)%float
     = true
  /\ status_of_invoice_1 (snd r) = Some pending.
Proof. vm_compute. repeat split. Qed.

End Delete.

(** ** Updating a payment *)

Section Update.

Import Examples.

(** Whatever the call, the update route leaves the invoices as they are. *)
Lemma put_payment_keeps_invoices
      (user : option User) (id : Z) (data : PartialPayment) (st : Store) :
  invoices (snd (put_payment user id data st)) = invoices st.
Proof.
  unfold put_payment.
  destruct user as [u|]; [|reflexivity].
  destruct (getPayment id st) as [payment|]; [|reflexivity].
  destruct (denied u (pay_userId payment)); [reflexivity|].
  destruct (updatePayment id data st) as [[r st1]|] eqn:U; [|reflexivity].
  exact (updatePayment_invoices _ _ _ _ _ U).
Qed.

(** C3: a pending invoice of 100.00 has one payment, of 40.00, whose
    amount is updated to 100.00.  The update succeeds; on the payments
    the invoice has afterwards the rule of the specification gives
    [paid]; the invoice is still pending. *)
Theorem put_payment_leaves_status_stale :
  let r := put_payment (Some alice) 1 (new_amount 10000) (ledger 10000 pending [4000]) in
  fst r = Updated (Some (payment_of 1 10000))
  /\ map pay_amount (getPaymentsByInvoice 1 (snd r)) = [10000]
  /\ Spec.derive_status 10000 (Spec.total_paid (getPaymentsByInvoice 1 (snd r))) pending
     = paid
  /\ status_of_invoice_1 (snd r) = Some pending.
Proof. vm_compute. repeat split. Qed.

End Update.

(** ** Conversion to minor units *)

Section Rounding.

Import Money.

(** Scenario C and the example of P4. *)
Lemma amountToDinero_examples :
  amountToDinero (AmountString "19.999") "USD"
  = Returns {| amount := of_Z 2000; currency := USD |}
  /\ amountToDinero (AmountString "10.005") "USD"
     = Returns {| amount := of_Z 1001; currency := USD |}.
Proof. vm_compute. split; reflexivity. Qed.

(** C7: the decimal 1.005 lies half way between 100 and 101 minor units
    and rounds half-up to 101; [amountToDinero] returns 100, because
    [parseFloat("1.005") * 100] is 100.49999999999999 in binary64. *)
Theorem amountToDinero_1_005_is_100 :
  Spec.fromDecimal_minor_units 1005 3 = 101
  /\ (parseFloat "1.005" * of_Z 100)%float = of_decimal false 10049999999999999 (-14)
  /\ amountToDinero (AmountString "1.005") "USD"
     = Returns {| amount := of_Z 100; currency := USD |}.
Proof. vm_compute. repeat split. Qed.

End Rounding.

(** ** Currencies *)

Section Currencies.

Import Money Examples.

Lemma amountToDinero_is_USD (a : Amount) (c : string) (d : Dinero) :
  amountToDinero a c = Returns d -> currency d = USD.
Proof.
  unfold amountToDinero, dinero.
  destruct (isInteger (amountInCents a)); [|discriminate].
  intros H. injection H as <-. reflexivity.
Qed.

Lemma amountToDinero_ignores_code (a : Amount) (c1 c2 : string) :
  amountToDinero a c1 = amountToDinero a c2.
Proof. reflexivity. Qed.

Lemma amountToDinero_invalid :
  amountToDinero (AmountString "abc") "USD" = Throws InvalidAmount
  /\ amountToDinero (AmountString "") "USD" = Throws InvalidAmount
  /\ amountToDinero (AmountNumber infinity) "USD" = Throws InvalidAmount
  /\ amountToDinero (AmountNumber nan) "USD" = Throws InvalidAmount.
Proof. vm_compute. repeat split. Qed.

Lemma isInteger_nearest (x : float) :
  isInteger x = true -> exists n, nearest_integer x = Some n.
Proof.
  unfold isInteger, nearest_integer.
  destruct (Prim2SF x) as [s| s | |s m e]; try discriminate; intros _.
  - now exists 0.
  - destruct (0 <=? e); eexists; reflexivity.
Qed.

Lemma toDecimal_text (x : float) (c : Currency) :
  isInteger x = true ->
  (abs x <? of_Z (2 ^ 53))%float = true ->
  exists n, nearest_integer x = Some n
            /\ toDecimal {| amount := x; currency := c |} = Some (decimal_text n).
Proof.
  intros Hi Hs. destruct (isInteger_nearest x Hi) as [n Hn].
  exists n. split; [exact Hn|].
  unfold toDecimal. cbn [amount]. rewrite Hi, Hs, Hn. reflexivity.
Qed.

Lemma add_of_USD (x y : float) :
  Money.add {| amount := x; currency := USD |} {| amount := y; currency := USD |}
  = dinero (x + y)%float USD.
Proof. reflexivity. Qed.

Lemma subtract_of_USD (x y : float) :
  Money.subtract {| amount := x; currency := USD |}
                 {| amount := y; currency := USD |}
  = dinero (x - y)%float USD.
Proof. reflexivity. Qed.

(** C4, as stated, fails: 50.00 tagged EUR and 100.00 tagged USD add up
    to 15000 minor units of USD, [addAmounts] returns the text 150.00,
    and a payment of 50.00 submitted with the currency EUR is created. *)
Lemma EUR_and_USD_amounts_add :
  bind (amountToDinero (AmountString "50.00") "EUR") (fun eur =>
  bind (amountToDinero (AmountString "100.00") "USD") (fun usd =>
  Money.add eur usd))
  = Returns {| amount := of_Z 15000; currency := USD |}
  /\ bind (amountToDinero (AmountString "50.00") "EUR") (fun eur =>
     bind (amountToDinero (AmountString "100.00") "USD") (fun usd =>
     Money.add eur usd))
     <> Throws UnequalCurrencies
  /\ subtractAmounts (AmountString "100.00") (AmountString "50.00")
     = Returns (Some "50.00"%string)
  /\ addAmounts (AmountString "50.00") (AmountString "100.00")
     = Returns (Some "150.00"%string)
  /\ fst (post_payment (Some alice) (pay 5000 [("currency", "EUR")%string])
                       (ledger 20000 pending []))
     = Created (payment_of 1 5000).
Proof.
  split; [vm_compute; reflexivity|].
  split; [vm_compute; discriminate|].
  vm_compute. repeat split.
Qed.

(** C4, amended: adding and subtracting amounts takes no currency.
    [addAmounts] and [subtractAmounts] build both operands in USD and
    never fail on a currency.  They fail with the error of [dinero] for
    an invalid amount exactly when the minor units of an operand, or
    their sum or difference, are not a whole finite number; otherwise
    they return [toDecimal] of the sum or of the difference of the minor
    units, which below [2^53] minor units is its decimal text.  The
    create route does not read any currency sent with a payment: the
    body with other unknown keys has the same response and leaves the
    same store. *)
Theorem amounts_combine_without_currency
        (a1 a2 : Amount)
        (user : option User) (body : PaymentBody)
        (extra : list (string * string)) (st : Store) :
  let sum := (amountInCents a1 + amountInCents a2)%float in
  let difference := (amountInCents a1 - amountInCents a2)%float in
  addAmounts a1 a2
  = (if isInteger (amountInCents a1) && isInteger (amountInCents a2)
        && isInteger sum
     then Returns (toDecimal {| amount := sum; currency := USD |})
     else Throws InvalidAmount)
  /\ subtractAmounts a1 a2
     = (if isInteger (amountInCents a1) && isInteger (amountInCents a2)
           && isInteger difference
        then Returns (toDecimal {| amount := difference; currency := USD |})
        else Throws InvalidAmount)
  /\ addAmounts a1 a2 <> Throws UnequalCurrencies
  /\ subtractAmounts a1 a2 <> Throws UnequalCurrencies
  /\ (isInteger sum = true -> (abs sum <? of_Z (2 ^ 53))%float = true ->
      exists n, nearest_integer sum = Some n
                /\ toDecimal {| amount := sum; currency := USD |}
                   = Some (decimal_text n))
  /\ (isInteger difference = true ->
      (abs difference <? of_Z (2 ^ 53))%float = true ->
      exists n, nearest_integer difference = Some n
                /\ toDecimal {| amount := difference; currency := USD |}
                   = Some (decimal_text n))
  /\ post_payment user
       {| body_invoiceId := body_invoiceId body;
          body_amount := body_amount body;
          body_date := body_date body;
          body_receiptGenerated := body_receiptGenerated body;
          body_extra := extra |} st
     = post_payment user body st.
Proof.
  intros sum difference.
  assert (Hadd : addAmounts a1 a2
                 = (if isInteger (amountInCents a1) && isInteger (amountInCents a2)
                       && isInteger sum
                    then Returns (toDecimal {| amount := sum; currency := USD |})
                    else Throws InvalidAmount)).
  { unfold addAmounts, amountToDinero, dinero at 1 2.
    destruct (isInteger (amountInCents a1)); [|reflexivity].
    destruct (isInteger (amountInCents a2)); [|reflexivity].
    cbn [bind andb]. rewrite add_of_USD. unfold dinero. fold sum.
    now destruct (isInteger sum). }
  assert (Hsub : subtractAmounts a1 a2
                 = (if isInteger (amountInCents a1) && isInteger (amountInCents a2)
                       && isInteger difference
                    then Returns (toDecimal {| amount := difference; currency := USD |})
                    else Throws InvalidAmount)).
  { unfold subtractAmounts, amountToDinero, dinero at 1 2.
    destruct (isInteger (amountInCents a1)); [|reflexivity].
    destruct (isInteger (amountInCents a2)); [|reflexivity].
    cbn [bind andb]. rewrite subtract_of_USD. unfold dinero. fold difference.
    now destruct (isInteger difference). }
  split; [exact Hadd|]. split; [exact Hsub|].
  split.
  { rewrite Hadd.
    destruct (isInteger (amountInCents a1) && isInteger (amountInCents a2)
              && isInteger sum); discriminate. }
  split.
  { rewrite Hsub.
    destruct (isInteger (amountInCents a1) && isInteger (amountInCents a2)
              && isInteger difference); discriminate. }
  split; [apply toDecimal_text|].
  split; [apply toDecimal_text|].
  reflexivity.
Qed.

Lemma amounts_combine_without_currency_witness :
  addAmounts (AmountString "abc") (AmountString "1.00") = Throws InvalidAmount
  /\ addAmounts (AmountString "50.00") (AmountString "100.00")
     = Returns (Some "150.00"%string)
  /\ subtractAmounts (AmountString "0.50") (AmountString "1.00")
     = Returns (Some "-0.50"%string).
Proof.
  split; [|split].
  - rewrite (proj1 (amounts_combine_without_currency
                      (AmountString "abc") (AmountString "1.00")
                      None (pay 5000 []) [] (ledger 20000 pending []))).
    vm_compute. reflexivity.
  - rewrite (proj1 (amounts_combine_without_currency
                      (AmountString "50.00") (AmountString "100.00")
                      None (pay 5000 []) [] (ledger 20000 pending []))).
    vm_compute. reflexivity.
  - rewrite (proj1 (proj2 (amounts_combine_without_currency
                             (AmountString "0.50") (AmountString "1.00")
                             None (pay 5000 []) [] (ledger 20000 pending [])))).
    vm_compute. reflexivity.
Defined.

End Currencies.

(** ** The dashboard *)

Section DashboardStats.

Import Examples.

(** C8: two stores on which the dashboard does not show the sums the
    claim names.  With invoices of 100.10 and 200.20 and one payment of
    300.30 the amounts add up to 300.30 on both sides and nothing is
    outstanding; the route answers a [totalRevenue] of
    300.29999999999995, below 300.30, and an [outstandingBalance] of
    [-2^-44] (about -5.68e-14).  With 2225 invoices of 99,999,999.99 the
    amounts add up to 222,499,999,977.75; the [totalRevenue] of the
    route reads 222499999977.74 to two decimals.  [pendingInvoices] is
    the number the claim names on both stores. *)
Theorem dashboard_sums_are_off_on_hundredths :
  Spec.totalRevenue (invoices settled_ledger) = 30030
  /\ Spec.totalPayments (payments settled_ledger) = 30030
  /\ Spec.outstandingBalance (invoices settled_ledger) (payments settled_ledger) = 0
  /\ Spec.pendingInvoices (invoices settled_ledger) = 1%nat
  /\ get_dashboard (Some alice) settled_ledger
     = Dashboard {| totalRevenue := Money.of_decimal false 30029999999999995 (-14);
                    pendingInvoices := 1;
                    totalPayments := Number_of_decimal 30030;
                    outstandingBalance := of_ratio true 1 (2 ^ 44) |}
  /\ (Money.of_decimal false 30029999999999995 (-14) <? Number_of_decimal 30030)%float
     = true
  /\ (of_ratio true 1 (2 ^ 44) <? of_Z 0)%float = true
  /\ Spec.totalRevenue (invoices large_ledger) = 22249999997775
  /\ Spec.pendingInvoices (invoices large_ledger) = 2225%nat
  /\ option_map pendingInvoices (dashboard_of large_ledger) = Some 2225%nat
  /\ option_map (fun stats => toFixed2 (totalRevenue stats))
                (dashboard_of large_ledger)
     = Some (Some "222499999977.74"%string).
Proof. vm_compute. repeat split. Qed.

End DashboardStats.

Lemma admin_sees_all_rows (u : User) (st : Store) :
  is_admin u = true ->
  getInvoices (if is_admin u then None else Some (user_id u)) st = invoices st
  /\ getPayments (if is_admin u then None else Some (user_id u)) st = payments st.
Proof. intros ->. split; reflexivity. Qed.

(** ** The report data *)

Section ReportData.

Import Reports Examples.

(** Scenario E where local time is not behind UTC: the three invoices of
    March fall into the bucket of March, whose revenue is 400.00. *)
Lemma three_invoices_of_march_east :
  revenues clock_east three_invoices
  = Some [Some "0.00"; Some "0.00"; Some "400.00"]%string.
Proof. vm_compute. reflexivity. Qed.

(** C9: two inputs on which the bucketed revenue is not what the claim
    says.  Where local time is behind UTC the invoice dated 1 March is
    counted in February, and the bucket of March holds 300.00, not
    400.00.  And of 2225 invoices of 99,999,999.99 dated in one month,
    the first alone gives 99999999.99, the other 2224 give
    222399999977.76, together 222499999977.75, while the bucket of all of
    them holds 222499999977.74. *)
Theorem bucket_revenue_off_on_dates_and_at_scale :
  revenues clock_west three_invoices
  = Some [Some "0.00"; Some "100.00"; Some "300.00"]%string
  /\ revenues clock_east (filter first_one many_invoices)
     = Some [Some "0.00"; Some "0.00"; Some "99999999.99"]%string
  /\ revenues clock_east (filter (fun i => negb (first_one i)) many_invoices)
     = Some [Some "0.00"; Some "0.00"; Some "222399999977.76"]%string
  /\ revenues clock_east many_invoices
     = Some [Some "0.00"; Some "0.00"; Some "222499999977.74"]%string
  /\ 9999999999 + 22239999997776 = 22249999997775.
Proof. vm_compute. repeat split. Qed.

(** C10, as stated, fails: two runs on the same invoices and payments,
    with the same period and clock, differ in the [expenses] of a bucket
    when [Math.random()] returns 0 in one run and 0.5 in the other. *)
Lemma two_runs_differ :
  calculateReportData (Some three_invoices) (Some []) false false
                      "last_3_months" clock_east (fun _ => zero)
  <> calculateReportData (Some three_invoices) (Some []) false false
                         "last_3_months" clock_east (fun _ => of_ratio false 1 2).
Proof. vm_compute. intros H. discriminate H. Qed.

(** C10, amended: with the same report period and the same clock, two
    runs over the same invoices and payments produce the same buckets as
    far as [name], [revenue] and [payments] go, whatever [Math.random()]
    returns in either run; only [expenses] is drawn afresh.  The function
    returns the data points and nothing else: it reads the invoices and
    payments it is given and leaves them as they are. *)
Theorem report_fields_do_not_depend_on_random
        (invoices : option (list Invoice)) (pays : option (list Payment))
        (isLoadingInvoices isLoadingPayments : bool)
        (reportPeriod : string) (clock : Clock) (random1 random2 : nat -> float) :
  option_map (map (fun d => (name d, revenue d, Reports.payments d)))
    (calculateReportData invoices pays isLoadingInvoices isLoadingPayments
                         reportPeriod clock random1)
  = option_map (map (fun d => (name d, revenue d, Reports.payments d)))
      (calculateReportData invoices pays isLoadingInvoices isLoadingPayments
                           reportPeriod clock random2).
Proof.
  unfold calculateReportData.
  destruct invoices as [invs|], pays as [ps|]; try reflexivity.
  destruct (isLoadingInvoices || isLoadingPayments)%bool; [reflexivity|].
  simpl. rewrite !map_map. reflexivity.
Qed.

End ReportData.

(** ** Instances *)

Section Instances.

Import Examples.

Lemma overdue_never_reopened_witness :
  getInvoice 1 (ledger 10000 overdue [2500])
  = Some (invoice_of 1 10000 overdue (march 10))
  /\ inv_status (invoice_of 1 10000 overdue (march 10)) = overdue
  /\ exists inv',
       getInvoice 1 (snd (handle (Some alice) (Post (pay 10000 []))
                                 (ledger 10000 overdue [2500])))
       = Some inv' /\
       inv_status inv' <> pending /\
       (inv_status inv' = overdue \/
        (inv_status inv' = paid /\
         exists body, Post (pay 10000 []) = Post body /\ body_invoiceId body = 1)).
Proof.
  split; [reflexivity|]. split; [reflexivity|].
  apply (overdue_never_reopened (Some alice) (ledger 10000 overdue [2500]) 1
           (invoice_of 1 10000 overdue (march 10))); reflexivity.
Defined.

End Instances.

(** * Further properties of the routes *)

Section PaymentRoutes.

Import InvoiceRoutes.

Lemma failure_leaves_store
      (user : option User) (call : PaymentCall) (st : Store) :
  succeeded (fst (handle user call st)) = false ->
  snd (handle user call st) = st.
Proof.
  destruct call as [body | id data | id]; simpl handle.
  - unfold post_payment.
    destruct user as [u|]; [|reflexivity].
    destruct (getInvoice (body_invoiceId body) st); [|reflexivity].
    destruct (denied u _); [reflexivity|].
    destruct (safeParse body (user_id u)); [|reflexivity].
    destruct (createPayment _ st) as [[p st1]|]; [|reflexivity].
    simpl. discriminate.
  - unfold put_payment.
    destruct user as [u|]; [|reflexivity].
    destruct (getPayment id st); [|reflexivity].
    destruct (denied u _); [reflexivity|].
    destruct (updatePayment id data st) as [[r st1]|]; [|reflexivity].
    simpl. discriminate.
  - unfold delete_payment.
    destruct user as [u|]; [|reflexivity].
    destruct (getPayment id st); [|reflexivity].
    destruct (denied u _); [reflexivity|].
    simpl. discriminate.
Qed.

(** X1: a payment call that does not answer with a success status leaves
    the store exactly as it found it. *)
Theorem failed_payment_call_changes_nothing
        (user : option User) (call : PaymentCall) (st : Store) :
  succeeded (fst (handle user call st)) = false ->
  snd (handle user call st) = st.
Proof. apply failure_leaves_store. Qed.

(** X2: an accountant is refused every payment call that is checked against
    a row of another user, and the store is left as it was. *)
Theorem accountant_needs_ownership
        (u : User) (call : PaymentCall) (st : Store) (owner : Z) :
  user_role u = accountant ->
  checked_owner call st = Some owner ->
  owner <> user_id u ->
  handle (Some u) call st = (AccessDenied, st).
Proof.
  intros Hrole Hown Hne.
  assert (denied u owner = true) as D.
  { unfold denied, is_admin. rewrite Hrole. simpl.
    apply negb_true_iff, Z.eqb_neq. exact Hne. }
  destruct call as [body | id data | id]; simpl in *.
  - unfold post_payment.
    destruct (getInvoice (body_invoiceId body) st) as [i|]; [|discriminate].
    injection Hown as ->. now rewrite D.
  - unfold put_payment.
    destruct (getPayment id st) as [p|]; [|discriminate].
    injection Hown as ->. now rewrite D.
  - unfold delete_payment.
    destruct (getPayment id st) as [p|]; [|discriminate].
    injection Hown as ->. now rewrite D.
Qed.

Lemma with_status_same (i : Invoice) : with_status (inv_status i) i = i.
Proof. now destruct i. Qed.

(** X3: how a payment call may change an invoice: nothing but its status,
    and the status only from unpaid to paid by a creation against this
    invoice, or from paid to pending by a deletion. *)
Theorem payment_call_transitions
        (user : option User) (call : PaymentCall) (st : Store)
        (id : Z) (inv : Invoice) :
  getInvoice id st = Some inv ->
  exists s',
    getInvoice id (snd (handle user call st)) = Some (with_status s' inv) /\
    (s' = inv_status inv
     \/ (s' = paid /\ inv_status inv <> paid /\
         exists body, call = Post body /\ body_invoiceId body = id)
     \/ (s' = pending /\ inv_status inv = paid /\ exists pid, call = Delete pid)).
Proof.
  intros Hinv.
  assert (forall st', invoices st' = invoices st ->
            exists s', getInvoice id st' = Some (with_status s' inv) /\
                       (s' = inv_status inv
                        \/ (s' = paid /\ inv_status inv <> paid /\
                            exists body, call = Post body /\ body_invoiceId body = id)
                        \/ (s' = pending /\ inv_status inv = paid /\
                            exists pid, call = Delete pid))) as Same.
  { intros st' E. exists (inv_status inv). split; [|now left].
    rewrite with_status_same, (getInvoice_same_invoices id st st' E). exact Hinv. }
  destruct call as [body | pid data | pid]; simpl handle.
  - unfold post_payment.
    destruct user as [u|]; [|now apply Same].
    destruct (getInvoice (body_invoiceId body) st) as [invoice|] eqn:G;
      [|now apply Same].
    destruct (denied u _); [now apply Same|].
    destruct (safeParse body (user_id u)) as [data|]; [|now apply Same].
    destruct (createPayment data st) as [[p st1]|] eqn:C; [|now apply Same].
    simpl snd.
    pose proof (createPayment_invoices _ _ _ _ C) as E1.
    destruct (reconcile_created_cases invoice p st1) as [-> | [-> Hnp]].
    + now apply Same.
    + rewrite getInvoice_updateInvoice, (getInvoice_same_invoices id st st1 E1), Hinv.
      destruct (id =? inv_id invoice) eqn:E; simpl.
      * apply Z.eqb_eq in E.
        pose proof (getInvoice_id _ _ _ G) as Hid.
        assert (invoice = inv) as -> by congruence.
        exists paid. split; [reflexivity|].
        right; left. split; [reflexivity|]. split; [exact Hnp|].
        exists body. split; [reflexivity | congruence].
      * exists (inv_status inv). rewrite with_status_same. split; [reflexivity | now left].
  - unfold put_payment.
    destruct user as [u|]; [|now apply Same].
    destruct (getPayment pid st); [|now apply Same].
    destruct (denied u _); [now apply Same|].
    destruct (updatePayment pid data st) as [[r st1]|] eqn:U; [|now apply Same].
    apply Same. exact (updatePayment_invoices _ _ _ _ _ U).
  - unfold delete_payment.
    destruct user as [u|]; [|now apply Same].
    destruct (getPayment pid st) as [p|]; [|now apply Same].
    destruct (denied u _); [now apply Same|].
    simpl snd.
    destruct (reconcile_deleted_cases p (deletePayment pid st))
      as [-> | (invoice & G & Hpaid & ->)].
    + now apply Same.
    + rewrite getInvoice_updateInvoice.
      change (getInvoice id (deletePayment pid st)) with (getInvoice id st).
      change (getInvoice (pay_invoiceId p) (deletePayment pid st))
        with (getInvoice (pay_invoiceId p) st) in G.
      rewrite Hinv.
      destruct (id =? inv_id invoice) eqn:E; simpl.
      * apply Z.eqb_eq in E.
        pose proof (getInvoice_id _ _ _ G) as Hid.
        assert (invoice = inv) as -> by congruence.
        exists pending. split; [reflexivity|].
        right; right. split; [reflexivity|]. split; [exact Hpaid|].
        now exists pid.
      * exists (inv_status inv). rewrite with_status_same. split; [reflexivity | now left].
Qed.

Lemma without_status_updateInvoice (id : Z) (s : Status) (st : Store) :
  Permutation (map without_status (invoices (updateInvoice id s st)))
              (map without_status (invoices st)).
Proof.
  unfold updateInvoice; simpl. now apply update_rows_permutes.
Qed.

(** X4: no payment call adds, removes or edits an invoice: apart from
    the statuses and from the order in which the rows are returned, the
    table of invoices is the same afterwards. *)
Theorem payment_call_keeps_invoice_rows
        (user : option User) (call : PaymentCall) (st : Store) :
  Permutation (map without_status (invoices (snd (handle user call st))))
              (map without_status (invoices st)).
Proof.
  destruct (succeeded (fst (handle user call st))) eqn:S;
    [|now rewrite failure_leaves_store].
  destruct call as [body | id data | id]; simpl handle in *.
  - unfold post_payment in *.
    destruct user as [u|]; [|reflexivity].
    destruct (getInvoice (body_invoiceId body) st) as [invoice|]; [|reflexivity].
    destruct (denied u _); [reflexivity|].
    destruct (safeParse body (user_id u)) as [d|]; [|reflexivity].
    destruct (createPayment d st) as [[p st1]|] eqn:C; [|reflexivity].
    simpl snd.
    destruct (reconcile_created_cases invoice p st1) as [-> | [-> _]];
      [|rewrite without_status_updateInvoice];
      now rewrite (createPayment_invoices _ _ _ _ C).
  - now rewrite put_payment_keeps_invoices.
  - unfold delete_payment in *.
    destruct user as [u|]; [|reflexivity].
    destruct (getPayment id st) as [p|]; [|reflexivity].
    destruct (denied u _); [reflexivity|].
    simpl snd.
    destruct (reconcile_deleted_cases p (deletePayment id st))
      as [-> | (invoice & _ & _ & ->)];
      [|rewrite without_status_updateInvoice]; reflexivity.
Qed.

End PaymentRoutes.

Section PaymentRows.

Import InvoiceRoutes.

Lemma reconcile_created_payments (invoice : Invoice) (p : Payment) (st : Store) :
  payments (reconcile_created invoice p st) = payments st
  /\ next_payment_id (reconcile_created invoice p st) = next_payment_id st.
Proof.
  destruct (reconcile_created_cases invoice p st) as [-> | [-> _]]; split; reflexivity.
Qed.

Lemma reconcile_deleted_payments (p : Payment) (st : Store) :
  payments (reconcile_deleted p st) = payments st.
Proof.
  destruct (reconcile_deleted_cases p st) as [-> | (i & _ & _ & ->)]; reflexivity.
Qed.

Lemma find_after_delete (id : Z) (l : list Payment) :
  find (fun p => pay_id p =? id) (filter (fun p => negb (pay_id p =? id)) l) = None.
Proof.
  induction l as [|p l IH]; simpl; [reflexivity|].
  destruct (pay_id p =? id) eqn:E; simpl; [exact IH|].
  rewrite E. exact IH.
Qed.

Lemma find_other_after_delete (id id' : Z) (l : list Payment) :
  id' <> id ->
  find (fun p => pay_id p =? id') (filter (fun p => negb (pay_id p =? id)) l)
  = find (fun p => pay_id p =? id') l.
Proof.
  intros Hne. induction l as [|p l IH]; simpl; [reflexivity|].
  destruct (pay_id p =? id) eqn:E; simpl.
  - apply Z.eqb_eq in E.
    destruct (pay_id p =? id') eqn:E'; [|exact IH].
    apply Z.eqb_eq in E'. congruence.
  - destruct (pay_id p =? id'); [reflexivity | exact IH].
Qed.

Lemma find_after_update (id id' : Z) (d : PartialPayment) (l : list Payment) :
  find (fun p => pay_id p =? id')
       (update_rows (fun p => pay_id p =? id) (apply_partial d) l)
  = if id' =? id
    then option_map (apply_partial d) (find (fun p => pay_id p =? id') l)
    else find (fun p => pay_id p =? id') l.
Proof. now apply find_update_rows. Qed.

Lemma delete_after_update (id : Z) (d : PartialPayment) (l : list Payment) :
  filter (fun p => negb (pay_id p =? id))
         (update_rows (fun p => pay_id p =? id) (apply_partial d) l)
  = filter (fun p => negb (pay_id p =? id)) l.
Proof. now apply (filter_out_update_rows pay_id). Qed.

Lemma not_denied_for_owner (u : User) : denied u (user_id u) = false.
Proof. unfold denied. rewrite Z.eqb_refl. apply andb_false_r. Qed.

(** X5: when the create route answers 201, the payment it returns is the
    one it stored, at the end of the table and under the next id of the
    sequence; the payment refers to the invoice and carries the amount
    of the body, and it belongs to the caller. *)
Theorem created_payment_is_stored
        (user : option User) (body : PaymentBody) (st : Store) (p : Payment) :
  fst (post_payment user body st) = Created p ->
  payments (snd (post_payment user body st)) = payments st ++ [p]
  /\ next_payment_id (snd (post_payment user body st)) = next_payment_id st + 1
  /\ pay_id p = next_payment_id st
  /\ pay_invoiceId p = body_invoiceId body
  /\ body_amount body = Some (pay_amount p)
  /\ option_map user_id user = Some (pay_userId p).
Proof.
  unfold post_payment.
  destruct user as [u|]; [|discriminate].
  destruct (getInvoice (body_invoiceId body) st) as [invoice|]; [|discriminate].
  destruct (denied u _); [discriminate|].
  unfold safeParse.
  destruct (body_amount body) as [a|]; [|discriminate].
  destruct (body_date body) as [d|]; [|discriminate].
  unfold createPayment. simpl ins_amount.
  destruct (fits_decimal_10_2 a); [|discriminate].
  simpl fst. simpl snd. intros H. injection H as <-.
  destruct (reconcile_created_payments invoice
              {| pay_id := next_payment_id st;
                 pay_invoiceId := body_invoiceId body;
                 pay_amount := a; pay_date := d;
                 pay_receiptGenerated :=
                   match body_receiptGenerated body with Some b => b | None => false end;
                 pay_userId := user_id u |}
              {| invoices := invoices st;
                 payments := payments st ++
                   [{| pay_id := next_payment_id st;
                       pay_invoiceId := body_invoiceId body;
                       pay_amount := a; pay_date := d;
                       pay_receiptGenerated :=
                         match body_receiptGenerated body with Some b => b | None => false end;
                       pay_userId := user_id u |}];
                 next_payment_id := next_payment_id st + 1 |}) as [-> ->].
  repeat split.
Qed.

(** X6: when the delete route answers 204, every row with the given id
    is gone, a lookup of the id finds nothing, and the other payments
    are found as before. *)
Theorem deleted_payment_is_gone
        (user : option User) (id : Z) (st : Store) :
  fst (delete_payment user id st) = Deleted ->
  payments (snd (delete_payment user id st))
  = filter (fun p => negb (pay_id p =? id)) (payments st)
  /\ getPayment id (snd (delete_payment user id st)) = None
  /\ forall id', id' <> id ->
       getPayment id' (snd (delete_payment user id st)) = getPayment id' st.
Proof.
  unfold delete_payment.
  destruct user as [u|]; [|discriminate].
  destruct (getPayment id st) as [p|]; [|discriminate].
  destruct (denied u _); [discriminate|].
  intros _. simpl snd.
  unfold getPayment. rewrite reconcile_deleted_payments. simpl.
  split; [reflexivity|]. split; [apply find_after_delete|].
  intros id' Hne. now apply find_other_after_delete.
Qed.

(** X7: when the update route answers 200, the payment it returns is the
    stored payment with the submitted fields replaced, a lookup of the
    id returns the same payment, and the other payments are found as
    before. *)
Theorem updated_payment_is_returned
        (user : option User) (id : Z) (data : PartialPayment) (st : Store)
        (r : option Payment) :
  fst (put_payment user id data st) = Updated r ->
  exists p,
    getPayment id st = Some p
    /\ r = Some (apply_partial data p)
    /\ getPayment id (snd (put_payment user id data st)) = r
    /\ forall id', id' <> id ->
         getPayment id' (snd (put_payment user id data st)) = getPayment id' st.
Proof.
  unfold put_payment.
  destruct user as [u|]; [|discriminate].
  destruct (getPayment id st) as [p|] eqn:G; [|discriminate].
  destruct (denied u _); [discriminate|].
  unfold updatePayment.
  destruct (sets_no_column data); [discriminate|].
  destruct (fits_decimal_10_2 _); [|discriminate].
  simpl fst. simpl snd. intros H. injection H as <-.
  exists p. split; [reflexivity|].
  unfold getPayment in *. simpl.
  rewrite find_after_update, Z.eqb_refl, G. simpl.
  repeat split.
  intros id' Hne. rewrite find_after_update.
  apply Z.eqb_neq in Hne. now rewrite Hne.
Qed.

(** X8: the status rule of a successful creation.  The invoice is set to
    paid exactly when it was not paid and its amount is at most the sum,
    in JavaScript numbers, of the payments it had, then the new payment,
    then the new payment again. *)
Theorem create_route_status_rule
        (u : User) (body : PaymentBody) (st st1 : Store)
        (invoice : Invoice) (data : InsertPayment) (payment : Payment) :
  getInvoice (body_invoiceId body) st = Some invoice ->
  denied u (inv_userId invoice) = false ->
  safeParse body (user_id u) = Some data ->
  createPayment data st = Some (payment, st1) ->
  post_payment (Some u) body st
  = (Created payment,
     if andb (Number_of_decimal (inv_amount invoice)
              <=? sumPayments (getPaymentsByInvoice (inv_id invoice) st
                               ++ [payment; payment]))%float
             (negb (Status_eqb (inv_status invoice) paid))
     then updateInvoice (inv_id invoice) paid st1
     else st1).
Proof.
  intros G D P C.
  unfold post_payment. rewrite G, D, P, C.
  unfold reconcile_created.
  now rewrite (created_payment_counted_twice body (user_id u) st st1 invoice data
                 payment G P C).
Qed.

(** X10: the update route does not check the invoice a payment is moved
    to.  A user who owns a payment can move it to any paid invoice,
    whoever owns that invoice, and delete it: when the payments that
    invoice keeps sum to less than its amount, the invoice is pending
    afterwards. *)
Theorem moved_payment_reopens_any_invoice
        (u : User) (pid j : Z) (st : Store) (p : Payment) (target : Invoice) :
  getPayment pid st = Some p ->
  pay_userId p = user_id u ->
  getInvoice j st = Some target ->
  inv_status target = paid ->
  (sumPayments (getPaymentsByInvoice j (deletePayment pid st))
   <? Number_of_decimal (inv_amount target))%float = true ->
  fst (put_payment (Some u) pid (move_to j) st)
  = Updated (Some (apply_partial (move_to j) p))
  /\ fst (delete_payment (Some u) pid (snd (put_payment (Some u) pid (move_to j) st)))
     = Deleted
  /\ option_map inv_status
       (getInvoice j
          (snd (delete_payment (Some u) pid
                  (snd (put_payment (Some u) pid (move_to j) st)))))
     = Some pending.
Proof.
  intros G Own Gj Hpaid Hlt.
  pose proof (getInvoice_id _ _ _ Gj) as Hid.
  assert (put_payment (Some u) pid (move_to j) st
          = (Updated (Some (apply_partial (move_to j) p)),
             set_payments st
               (update_rows (fun q => pay_id q =? pid) (apply_partial (move_to j))
                            (payments st)))) as Hput.
  { unfold put_payment. rewrite G, Own, not_denied_for_owner.
    unfold updatePayment. simpl.
    unfold getPayment in *. simpl.
    rewrite find_after_update, Z.eqb_refl, G. reflexivity. }
  rewrite Hput. cbn [fst snd].
  set (st1 := set_payments st _).
  assert (getPayment pid st1 = Some (apply_partial (move_to j) p)) as G1.
  { unfold getPayment, st1 in *. simpl.
    rewrite find_after_update, Z.eqb_refl, G. reflexivity. }
  assert (deletePayment pid st1 = deletePayment pid st) as Hdel.
  { unfold deletePayment, st1, set_payments. simpl.
    now rewrite delete_after_update. }
  split; [reflexivity|].
  rewrite (delete_payment_rule u pid st1 (apply_partial (move_to j) p) target).
  - split; [reflexivity|]. cbn [fst snd].
    rewrite Hdel, Hid, Hlt.
    rewrite getInvoice_updateInvoice, Z.eqb_refl.
    change (getInvoice j (deletePayment pid st)) with (getInvoice j st).
    rewrite Gj. reflexivity.
  - exact G1.
  - simpl. rewrite Own. apply not_denied_for_owner.
  - exact Gj.
  - exact Hpaid.
Qed.

(** The update route answers with an error, and writes nothing, when the
    body names no column of a payment. *)
Lemma put_payment_without_columns
      (u : User) (id : Z) (data : PartialPayment) (st : Store) (p : Payment) :
  getPayment id st = Some p ->
  denied u (pay_userId p) = false ->
  sets_no_column data = true ->
  put_payment (Some u) id data st = (Failed, st).
Proof.
  intros G D E. unfold put_payment, updatePayment. now rewrite G, D, E.
Qed.

(** A row that an update has rewritten is returned after the others:
    once the delete route has set invoice 1 of the shared ledger to
    pending, the invoices are listed as 2, 1; once payment 1 has been
    updated, the payments are listed as 2, 3, 1. *)
Lemma updated_rows_come_last :
  map inv_id
      (invoices (snd (delete_payment (Some Examples.alice) 1 TwoUsers.shared_ledger)))
  = [2; 1]
  /\ map pay_id
         (payments (snd (put_payment (Some Examples.alice) 1
                                     (Examples.new_amount 7000)
                                     TwoUsers.shared_ledger)))
     = [2; 3; 1].
Proof. vm_compute. split; reflexivity. Qed.

End PaymentRows.

(** * Properties of the invoice routes and the read routes *)

Section InvoiceRows.

Import InvoiceRoutes.

Lemma find_invoice_after_delete (id : Z) (l : list Invoice) :
  find (fun i => inv_id i =? id) (filter (fun i => negb (inv_id i =? id)) l) = None.
Proof.
  induction l as [|i l IH]; simpl; [reflexivity|].
  destruct (inv_id i =? id) eqn:E; simpl; [exact IH|].
  rewrite E. exact IH.
Qed.

Lemma find_invoice_after_update (id : Z) (d : PartialInvoice) (l : list Invoice) :
  find (fun i => inv_id i =? id)
       (update_rows (fun i => inv_id i =? id) (apply_partial_invoice d) l)
  = option_map (apply_partial_invoice d) (find (fun i => inv_id i =? id) l).
Proof.
  rewrite (find_update_rows inv_id) by reflexivity.
  now rewrite Z.eqb_refl.
Qed.

(** X11: deleting an invoice deletes no payment.  When the route answers
    204 the invoice is gone and the table of payments is as before; a
    payment can no longer be created against the invoice (404), and a
    payment left behind can still be deleted by whoever may, without any
    invoice being touched. *)
Theorem deleted_invoice_leaves_its_payments
        (user : option User) (id : Z) (st : Store) :
  fst (delete_invoice user id st) = Reply204 ->
  getInvoice id (snd (delete_invoice user id st)) = None
  /\ payments (snd (delete_invoice user id st)) = payments st
  /\ (forall (u : User) (body : PaymentBody),
        body_invoiceId body = id ->
        post_payment (Some u) body (snd (delete_invoice user id st))
        = (NotFound, snd (delete_invoice user id st)))
  /\ (forall (u : User) (pid : Z) (p : Payment),
        getPayment pid (snd (delete_invoice user id st)) = Some p ->
        pay_invoiceId p = id ->
        denied u (pay_userId p) = false ->
        delete_payment (Some u) pid (snd (delete_invoice user id st))
        = (Deleted, deletePayment pid (snd (delete_invoice user id st)))).
Proof.
  unfold delete_invoice.
  destruct user as [c|]; [|discriminate].
  destruct (getInvoice id st) as [invoice|]; [|discriminate].
  destruct (denied c _); [discriminate|].
  intros _. cbn [fst snd].
  assert (getInvoice id (deleteInvoice id st) = None) as Gone.
  { unfold getInvoice, deleteInvoice. simpl. apply find_invoice_after_delete. }
  split; [exact Gone|]. split; [reflexivity|]. split.
  - intros u body <-. unfold post_payment. now rewrite Gone.
  - intros u pid p G <- D.
    unfold delete_payment. rewrite G, D.
    unfold reconcile_deleted.
    change (getInvoice (pay_invoiceId p) (deletePayment pid (deleteInvoice (pay_invoiceId p) st)))
      with (getInvoice (pay_invoiceId p) (deleteInvoice (pay_invoiceId p) st)).
    now rewrite Gone.
Qed.

(** X12: the invoice update stores what is sent.  When the route answers
    200, the invoice it returns is the stored invoice with the submitted
    fields replaced (the status as submitted, or the old status when
    none is), a lookup returns the same invoice, and no payment has been
    read or changed. *)
Theorem put_invoice_stores_what_is_sent
        (user : option User) (id : Z) (data : PartialInvoice) (st : Store)
        (r : option Invoice) :
  fst (put_invoice user id data st) = Reply200 r ->
  exists inv,
    getInvoice id st = Some inv
    /\ r = Some (apply_partial_invoice data inv)
    /\ getInvoice id (snd (put_invoice user id data st)) = r
    /\ payments (snd (put_invoice user id data st)) = payments st.
Proof.
  unfold put_invoice.
  destruct user as [u|]; [|discriminate].
  destruct (getInvoice id st) as [inv|] eqn:G; [|discriminate].
  destruct (denied u _); [discriminate|].
  unfold updateInvoiceWith.
  destruct (sets_no_invoice_column data); [discriminate|].
  destruct (fits_decimal_10_2 _); [|discriminate].
  cbn [fst snd]. intros H. injection H as <-.
  exists inv. split; [reflexivity|].
  unfold getInvoice in *. simpl.
  rewrite find_invoice_after_update, G. repeat split.
Qed.

(** X19: [GET /api/invoices] gives an accountant whose id is not 0 the
    invoices they own, all of them and no other. *)
Theorem accountant_lists_own_invoices
        (u : User) (st : Store) (i : Invoice) :
  user_role u = accountant ->
  user_id u <> 0 ->
  exists l,
    get_invoices (Some u) st = Reply200 l
    /\ (In i l <-> In i (invoices st) /\ inv_userId i = user_id u).
Proof.
  intros Hrole Hid.
  unfold get_invoices, scope, is_admin. rewrite Hrole.
  unfold getInvoices. apply Z.eqb_neq in Hid. rewrite Hid.
  eexists. split; [reflexivity|].
  rewrite filter_In. now rewrite Z.eqb_eq.
Qed.

(** X20: what an accountant may see and what they may change differ.  A
    payment another user made against an invoice of the accountant is
    listed among the payments of that invoice, but the accountant can
    neither read it by its id (403) nor update or delete it. *)
Theorem listed_payment_may_be_out_of_reach
        (u : User) (st : Store) (invoice : Invoice) (p : Payment)
        (data : PartialPayment) :
  user_role u = accountant ->
  getInvoice (pay_invoiceId p) st = Some invoice ->
  inv_userId invoice = user_id u ->
  getPayment (pay_id p) st = Some p ->
  pay_userId p <> user_id u ->
  (exists l, get_payments_of_invoice (Some u) (pay_invoiceId p) st = Reply200 l
             /\ In p l)
  /\ get_payment (Some u) (pay_id p) st = Reply403
  /\ put_payment (Some u) (pay_id p) data st = (AccessDenied, st)
  /\ delete_payment (Some u) (pay_id p) st = (AccessDenied, st).
Proof.
  intros Hrole Ginv Hown Gp Hne.
  assert (denied u (pay_userId p) = true) as D.
  { unfold denied, is_admin. rewrite Hrole. simpl.
    apply negb_true_iff, Z.eqb_neq. exact Hne. }
  split.
  - unfold get_payments_of_invoice. rewrite Ginv, Hown, not_denied_for_owner.
    eexists. split; [reflexivity|].
    unfold getPaymentsByInvoice. apply filter_In. split.
    + unfold getPayment in Gp. now apply find_some in Gp.
    + apply Z.eqb_refl.
  - unfold get_payment, put_payment, delete_payment. rewrite Gp, D. repeat split.
Qed.

End InvoiceRows.

(** * Properties of the dashboard *)

Section DashboardAfterwards.

Import InvoiceRoutes.

Lemma length_filter_twice {A : Type} (f g : A -> bool) (l : list A) :
  (List.length (filter f (filter g l)) <= List.length (filter f l))%nat.
Proof.
  induction l as [|x l IH]; simpl; [lia|].
  destruct (g x); simpl; destruct (f x); simpl; lia.
Qed.

Lemma none_pending_among_paid (own : Invoice -> bool) (l : list Invoice) :
  filter (fun i => Status_eqb (inv_status i) pending)
         (filter own (map (with_status paid) l)) = [].
Proof.
  induction l as [|i l IH]; simpl; [reflexivity|].
  destruct (own (with_status paid i)); simpl; exact IH.
Qed.

Lemma pending_after_paid (o : option Z) (id : Z) (st : Store) :
  (List.length (filter (fun i => Status_eqb (inv_status i) pending)
                       (getInvoices o (updateInvoice id paid st)))
   <= List.length (filter (fun i => Status_eqb (inv_status i) pending)
                          (getInvoices o st)))%nat.
Proof.
  assert (forall (own : Invoice -> bool) (l : list Invoice),
            (List.length
               (filter (fun i => Status_eqb (inv_status i) pending)
                  (filter own
                     (update_rows (fun i => Z.eqb (inv_id i) id) (with_status paid) l)))
             <= List.length
                  (filter (fun i => Status_eqb (inv_status i) pending)
                     (filter own l)))%nat) as Hown.
  { intros own l. unfold update_rows.
    rewrite !filter_app, none_pending_among_paid, app_nil_r.
    induction l as [|i l IH]; simpl; [lia|].
    destruct (Z.eqb (inv_id i) id); simpl; destruct (own i); simpl;
      try destruct (Status_eqb (inv_status i) pending); simpl; lia. }
  assert (forall l : list Invoice,
            (List.length
               (filter (fun i => Status_eqb (inv_status i) pending)
                  (update_rows (fun i => Z.eqb (inv_id i) id) (with_status paid) l))
             <= List.length
                  (filter (fun i => Status_eqb (inv_status i) pending) l))%nat)
    as Hall.
  { intros l. unfold update_rows.
    rewrite filter_app.
    replace (filter (fun i => Status_eqb (inv_status i) pending)
               (map (with_status paid) (filter (fun i => Z.eqb (inv_id i) id) l)))
      with (@nil Invoice).
    - rewrite app_nil_r. apply length_filter_twice.
    - generalize (filter (fun i => Z.eqb (inv_id i) id) l). intros l0.
      induction l0 as [|i l0 IH]; simpl; [reflexivity | exact IH]. }
  unfold getInvoices, updateInvoice; simpl.
  destruct o as [u|]; [|apply Hall].
  destruct (u =? 0); [apply Hall | apply Hown].
Qed.

Lemma getPayments_same_payments (o : option Z) (st st' : Store) :
  payments st = payments st' -> getPayments o st = getPayments o st'.
Proof. unfold getPayments. now intros ->. Qed.

Lemma visible_payments_after_create (u : User) (st : Store) (p : Payment) :
  pay_userId p = user_id u ->
  getPayments (scope u) (set_payments st (payments st ++ [p]))
  = getPayments (scope u) st ++ [p].
Proof.
  intros Hown. unfold getPayments, scope; simpl.
  destruct (is_admin u); [reflexivity|].
  destruct (user_id u =? 0); [reflexivity|].
  rewrite filter_app. simpl. now rewrite Hown, Z.eqb_refl.
Qed.

Lemma created_payment_rows (u : User) (body : PaymentBody) (st : Store) (p : Payment) :
  fst (post_payment (Some u) body st) = Created p ->
  payments (snd (post_payment (Some u) body st)) = payments st ++ [p]
  /\ (List.length
        (filter (fun i => Status_eqb (inv_status i) pending)
           (getInvoices (scope u) (snd (post_payment (Some u) body st))))
      <= List.length
           (filter (fun i => Status_eqb (inv_status i) pending)
              (getInvoices (scope u) st)))%nat
  /\ pay_userId p = user_id u.
Proof.
  unfold post_payment.
  destruct (getInvoice (body_invoiceId body) st) as [invoice|]; [|discriminate].
  destruct (denied u _); [discriminate|].
  destruct (safeParse body (user_id u)) as [d|] eqn:P; [|discriminate].
  destruct (createPayment d st) as [[q st1]|] eqn:C; [|discriminate].
  cbn [fst snd]. intros H. injection H as ->.
  assert (payments st1 = payments st ++ [p] /\ invoices st1 = invoices st
          /\ pay_userId p = user_id u) as (Hp & Hi & Hown).
  { unfold createPayment in C.
    destruct (fits_decimal_10_2 (ins_amount d)); [|discriminate].
    injection C as <- <-. simpl. repeat split.
    unfold safeParse in P.
    destruct (body_amount body), (body_date body); try discriminate.
    now injection P as <-. }
  assert (getInvoices (scope u) st1 = getInvoices (scope u) st) as Hg.
  { unfold getInvoices. now rewrite Hi. }
  destruct (reconcile_created_cases invoice p st1) as [-> | [-> _]].
  - split; [exact Hp|]. split; [|exact Hown].
    rewrite Hg. lia.
  - split; [exact Hp|]. split; [|exact Hown].
    rewrite <- Hg. apply pending_after_paid.
Qed.

(** X13: what a created payment does to the dashboard of its creator.
    [totalPayments] grows by the amount of the payment, added as a
    JavaScript number to the previous total, [outstandingBalance] is
    the [totalRevenue] of the new answer minus that sum, and
    [pendingInvoices] does not grow. *)
Theorem created_payment_raises_totalPayments
        (u : User) (body : PaymentBody) (st : Store) (p : Payment)
        (before after : DashboardStats) :
  fst (post_payment (Some u) body st) = Created p ->
  get_dashboard (Some u) st = Dashboard before ->
  get_dashboard (Some u) (snd (post_payment (Some u) body st)) = Dashboard after ->
  totalPayments after
  = (totalPayments before + Number_of_decimal (pay_amount p))%float
  /\ outstandingBalance after
     = (totalRevenue after
        - (totalPayments before + Number_of_decimal (pay_amount p)))%float
  /\ (pendingInvoices after <= pendingInvoices before)%nat.
Proof.
  intros Hc Hb Ha.
  destruct (created_payment_rows u body st p Hc) as (Hp & Hi & Hown).
  remember (snd (post_payment (Some u) body st)) as st' eqn:Est. clear Est Hc.
  unfold get_dashboard in Hb, Ha. fold (scope u) in Hb, Ha.
  injection Hb as <-. injection Ha as <-.
  cbn [totalPayments totalRevenue outstandingBalance pendingInvoices].
  assert (getPayments (scope u) st' = getPayments (scope u) st ++ [p]) as HP.
  { rewrite <- (visible_payments_after_create u st p Hown).
    apply getPayments_same_payments. exact Hp. }
  rewrite HP, fold_left_app. cbn [fold_left].
  repeat split. exact Hi.
Qed.

End DashboardAfterwards.

(** * Properties of the user routes *)

Section UserRows.

Import Users.

Lemma find_user_after_delete (id id' : Z) (l : list UserRow) :
  id' <> id ->
  find (fun u => row_id u =? id') (filter (fun u => negb (row_id u =? id)) l)
  = find (fun u => row_id u =? id') l.
Proof.
  intros Hne. induction l as [|r l IH]; simpl; [reflexivity|].
  destruct (row_id r =? id) eqn:E; simpl.
  - apply Z.eqb_eq in E.
    destruct (row_id r =? id') eqn:E'; [|exact IH].
    apply Z.eqb_eq in E'. congruence.
  - destruct (row_id r =? id'); [reflexivity | exact IH].
Qed.

(** X14: no call of [DELETE /api/admin/users/:id] removes the account of
    the caller, and a call by anyone but an administrator removes no
    account at all. *)
Theorem delete_user_keeps_the_caller
        (c : User) (userId : Z) (users : list UserRow) :
  getUser (user_id c) (snd (delete_user (Some c) userId users))
  = getUser (user_id c) users
  /\ (if is_admin c then True
      else delete_user (Some c) userId users = (AdminRequired, users)).
Proof.
  unfold delete_user.
  destruct (is_admin c); simpl; [|split; reflexivity].
  split; [|exact I].
  destruct (userId =? user_id c) eqn:E; [reflexivity|].
  destruct (getUser userId users); [|reflexivity].
  simpl. unfold getUser. apply find_user_after_delete.
  apply Z.eqb_neq in E. congruence.
Qed.

End UserRows.

(** * Properties of the currency helpers *)

Section CurrencyHelpers.

Import Money CurrencyService.

Lemma existsb_find {A : Type} (f : A -> bool) (l : list A) :
  existsb f l = match find f l with Some _ => true | None => false end.
Proof.
  induction l as [|x l IH]; simpl; [reflexivity|].
  destruct (f x); [reflexivity | exact IH].
Qed.

(** X15: [getCurrencyByCode] always answers with a supported currency:
    the one of the given code when the code is listed, and the US dollar
    for every other code. *)
Theorem getCurrencyByCode_falls_back (code : string) :
  In (getCurrencyByCode code) supportedCurrencies
  /\ info_code (getCurrencyByCode code) = (if listed code then code else "USD"%string).
Proof.
  unfold getCurrencyByCode, listed. rewrite existsb_find.
  destruct (find _ supportedCurrencies) as [c|] eqn:F.
  - apply find_some in F. destruct F as [Hin Heq].
    split; [exact Hin|]. now apply String.eqb_eq.
  - split; [now left | reflexivity].
Qed.

Lemma rate_without_entry (code : string) : has_rate code = false -> rate code = nan.
Proof.
  unfold has_rate, rate. rewrite existsb_find.
  now destruct (find _ exchangeRates).
Qed.

Lemma toFixed2_of_NaN (x : float) : Prim2SF x = S754_nan -> toFixed2 x = Some "NaN"%string.
Proof. unfold toFixed2. now intros ->. Qed.

Lemma div_by_NaN (x : float) : Prim2SF (x / nan) = S754_nan.
Proof.
  rewrite FloatAxioms.div_spec. change (Prim2SF nan) with S754_nan.
  now destruct (Prim2SF x).
Qed.

Lemma mul_by_NaN (x : float) : Prim2SF (x * nan) = S754_nan.
Proof.
  rewrite FloatAxioms.mul_spec. change (Prim2SF nan) with S754_nan.
  now destruct (Prim2SF x).
Qed.

Lemma mul_of_NaN (x y : float) : Prim2SF x = S754_nan -> Prim2SF (x * y) = S754_nan.
Proof. intros H. rewrite FloatAxioms.mul_spec, H. reflexivity. Qed.

(** X16: [convertCurrency] never reports an unsupported currency.  With
    equal codes, supported or not, a text amount comes back as it was
    given; with different codes of which one has no exchange rate, the
    result is the text NaN, whatever the amount. *)
Theorem convertCurrency_without_rate
        (amount : Amount) (s fromCurrency toCurrency : string) :
  convertCurrency (AmountString s) fromCurrency fromCurrency = Some s
  /\ (if orb (String.eqb fromCurrency toCurrency)
             (andb (has_rate fromCurrency) (has_rate toCurrency))
      then True
      else convertCurrency amount fromCurrency toCurrency = Some "NaN"%string).
Proof.
  split.
  - unfold convertCurrency. now rewrite String.eqb_refl.
  - destruct (String.eqb fromCurrency toCurrency) eqn:E; [exact I|].
    destruct (has_rate fromCurrency) eqn:Hf; simpl.
    + destruct (has_rate toCurrency) eqn:Ht; [exact I|].
      unfold convertCurrency. rewrite E, (rate_without_entry _ Ht).
      apply toFixed2_of_NaN, mul_by_NaN.
    + unfold convertCurrency. rewrite E, (rate_without_entry _ Hf).
      apply toFixed2_of_NaN, mul_of_NaN, div_by_NaN.
Qed.

Lemma zero_rate : (zero / of_Z 100)%float = zero.
Proof. vm_compute. reflexivity. Qed.

Lemma toFixed2_of_zero (x : float) (s : bool) :
  Prim2SF x = S754_zero s -> toFixed2 x = Some "0.00"%string.
Proof. unfold toFixed2. now intros ->. Qed.

Lemma toFixed2_below_1e21 (x : float) :
  isFinite x = true ->
  (abs x <? of_Z (10 ^ 21))%float = true ->
  exists text, toFixed2 x = Some text.
Proof.
  unfold isFinite, toFixed2. intros Hfin Hlt.
  destruct (Prim2SF x) as [sx | sx | | sx m e]; try discriminate.
  - eexists; reflexivity.
  - rewrite Hlt. eexists; reflexivity.
Qed.

Lemma total_with_zero_tax (x : float) :
  isFinite x = true ->
  toFixed2 (x + x * zero)%float = toFixed2 x.
Proof.
  unfold isFinite. intros Hfin.
  assert (exists s, Prim2SF (x * zero) = S754_zero s) as [s Hs].
  { rewrite FloatAxioms.mul_spec. change (Prim2SF zero) with (S754_zero false).
    destruct (Prim2SF x) as [sx | sx | | sx m e]; try discriminate;
      eexists; reflexivity. }
  destruct (Prim2SF x) as [sx | sx | | sx m e] eqn:Hx; try discriminate.
  - rewrite (toFixed2_of_zero x sx Hx).
    assert (exists s', Prim2SF (x + x * zero) = S754_zero s') as [s' Hs'].
    { rewrite FloatAxioms.add_spec, Hx, Hs. destruct sx, s; eexists; reflexivity. }
    exact (toFixed2_of_zero _ _ Hs').
  - assert ((x + x * zero)%float = x) as ->; [|reflexivity].
    apply Prim2SF_inj. rewrite FloatAxioms.add_spec, Hx, Hs. reflexivity.
Qed.

(** X17: a tax rate of 0.  For every amount that is a finite number
    below 1e21 in size the tax is 0.00 and the total with tax is the
    text of the amount itself with two decimals. *)
Theorem zero_tax_rate (amount : Amount) :
  isFinite (numeric amount) = true ->
  (abs (numeric amount) <? of_Z (10 ^ 21))%float = true ->
  exists text,
    toFixed2 (numeric amount) = Some text
    /\ calculateTax amount zero = Some "0.00"%string
    /\ calculateTotalWithTax amount zero = Some text.
Proof.
  intros Hfin Hlt.
  destruct (toFixed2_below_1e21 _ Hfin Hlt) as [text Htext].
  exists text. split; [exact Htext|].
  unfold calculateTax, calculateTotalWithTax.
  rewrite zero_rate. split.
  - assert (exists s, Prim2SF (numeric amount * zero) = S754_zero s) as [s Hs].
    { rewrite FloatAxioms.mul_spec. change (Prim2SF zero) with (S754_zero false).
      unfold isFinite in Hfin.
      destruct (Prim2SF (numeric amount)) as [sx | sx | | sx m e];
        try discriminate; eexists; reflexivity. }
    exact (toFixed2_of_zero _ _ Hs).
  - now rewrite total_with_zero_tax.
Qed.

End CurrencyHelpers.

(** * Properties of the report windows *)

Section ReportWindows.

Import Reports ReportMonths.

Lemma days_in_month_at_least_28 (y m : Z) : 28 <= days_in_month y m.
Proof.
  unfold days_in_month.
  destruct (m =? 1); [destruct (is_leap y); lia|].
  destruct (_ || _)%bool; lia.
Qed.

Lemma setMonth_up_to_28 (d : JsDate) (m : Z) :
  day d <= 28 ->
  setMonth d m = {| year := year d + m / 12; month := m mod 12; day := day d |}.
Proof.
  intros H. unfold setMonth.
  pose proof (days_in_month_at_least_28 (year d + m / 12) (m mod 12)) as L.
  destruct (day d <=? _) eqn:E; [reflexivity|].
  apply Z.leb_gt in E. lia.
Qed.

Lemma month_after_two_steps (y a i : Z) :
  (a mod 12 + i) mod 12 = (12 * y + a + i) mod 12
  /\ y + a / 12 + (a mod 12 + i) / 12 = (12 * y + a + i) / 12.
Proof.
  pose proof (Z.div_mod a 12 ltac:(lia)) as Ha.
  replace (12 * y + a + i) with ((y + a / 12) * 12 + (a mod 12 + i)) by lia.
  split.
  - rewrite (Z.add_comm ((y + a / 12) * 12)), Z_mod_plus_full. reflexivity.
  - rewrite Z_div_plus_full_l by lia. reflexivity.
Qed.

Lemma in_month_of_stored_date (clock : Clock) (k : Z) (s : IsoDate) :
  behind_utc clock = false ->
  in_month clock (k mod 12) (k / 12) s = dated_in k s.
Proof.
  intros Hb. unfold in_month, new_Date, dated_in. rewrite Hb. cbn [month year].
  f_equal.
  destruct (iso_month s - 1 =? k mod 12) eqn:E; symmetry.
  - apply Z.eqb_eq in E. apply Z.eqb_eq. lia.
  - apply Z.eqb_neq in E. apply Z.eqb_neq. lia.
Qed.

Lemma fold_of_amounts {A : Type} (amount : A -> decimal) (l : list A) (z : float) :
  fold_left (fun sum x => (sum + Number_of_decimal (amount x))%float) l z
  = fold_left (fun sum a => (sum + Number_of_decimal a)%float) (map amount l) z.
Proof.
  revert z. induction l as [|x l IH]; intros z; simpl; [reflexivity | apply IH].
Qed.

Lemma totals_of_stored_month (clock : Clock) (invoices : list Invoice)
      (pays : list Payment) (k : Z) :
  behind_utc clock = false ->
  monthRevenue clock (k mod 12) (k / 12) invoices
  = running_total (map inv_amount (filter (fun i => dated_in k (inv_date i)) invoices))
  /\ monthPaymentTotal clock (k mod 12) (k / 12) pays
     = running_total (map pay_amount (filter (fun p => dated_in k (pay_date p)) pays)).
Proof.
  intros Hutc.
  unfold monthRevenue, monthPaymentTotal, running_total.
  rewrite (filter_ext (fun invoice => in_month clock (k mod 12) (k / 12) (inv_date invoice))
                      (fun i0 => dated_in k (inv_date i0)))
    by (intros a; now apply in_month_of_stored_date).
  rewrite (filter_ext (fun payment => in_month clock (k mod 12) (k / 12) (pay_date payment))
                      (fun p => dated_in k (pay_date p)))
    by (intros a; now apply in_month_of_stored_date).
  rewrite (fold_of_amounts inv_amount), (fold_of_amounts pay_amount).
  split; reflexivity.
Qed.

(** X18: on the 28 days every month has, and where local time is not
    behind UTC, the buckets are consecutive calendar months ending at
    the current one.  The report has 3, 6 or 12 data points, and the
    point of index [i] is the point of the month [n - 1 - i] months
    before the current month: its name, and the running totals of the
    invoices and of the payments whose stored date lies in that month. *)
Theorem buckets_are_consecutive_months
        (invoices : list Invoice) (pays : list Payment)
        (reportPeriod : string) (clock : Clock) (random : nat -> float) :
  day (today clock) <= 28 ->
  behind_utc clock = false ->
  calculateReportData (Some invoices) (Some pays) false false
                      reportPeriod clock random
  = Some (map (fun i => point_of_month invoices pays
                          (month_number clock (monthsCount reportPeriod) i)
                          (random i))
              (seq 0 (monthsCount reportPeriod))).
Proof.
  intros Hday Hutc. unfold calculateReportData. simpl orb. cbv iota.
  f_equal. apply map_ext. intros i.
  rewrite (setMonth_up_to_28 (today clock)) by exact Hday.
  unfold dataPoint.
  rewrite setMonth_up_to_28 by exact Hday.
  cbn [year month day].
  destruct (month_after_two_steps (year (today clock))
              (month (today clock) - (Z.of_nat (monthsCount reportPeriod) - 1))
              (Z.of_nat i)) as [Hm Hy].
  unfold point_of_month, month_number.
  replace (12 * year (today clock) + month (today clock)
           - (Z.of_nat (monthsCount reportPeriod) - 1) + Z.of_nat i)
    with (12 * year (today clock)
          + (month (today clock) - (Z.of_nat (monthsCount reportPeriod) - 1))
          + Z.of_nat i) by lia.
  rewrite Hm, Hy.
  destruct (totals_of_stored_month clock invoices pays
              (12 * year (today clock)
               + (month (today clock) - (Z.of_nat (monthsCount reportPeriod) - 1))
               + Z.of_nat i) Hutc) as [-> ->].
  reflexivity.
Qed.

End ReportWindows.

(** * Instances of the further properties *)

Section MoreInstances.

Import Examples TwoUsers InvoiceRoutes.

Lemma failed_payment_call_changes_nothing_witness :
  snd (handle None (Delete 1) shared_ledger) = shared_ledger.
Proof.
  apply (failed_payment_call_changes_nothing None (Delete 1) shared_ledger).
  reflexivity.
Defined.

Lemma accountant_needs_ownership_witness :
  handle (Some bob) (Delete 1) shared_ledger = (AccessDenied, shared_ledger).
Proof.
  apply (accountant_needs_ownership bob (Delete 1) shared_ledger 1);
    [reflexivity | reflexivity | discriminate].
Defined.

Lemma payment_call_transitions_witness :
  exists s',
    getInvoice 1 (snd (handle (Some alice) (Delete 1) shared_ledger))
    = Some (with_status s' (invoice_of 1 10000 paid (march 10))) /\
    (s' = paid
     \/ (s' = paid /\ paid <> paid /\
         exists body, Delete 1 = Post body /\ body_invoiceId body = 1)
     \/ (s' = pending /\ paid = paid /\ exists pid, Delete 1 = Delete pid)).
Proof.
  apply (payment_call_transitions (Some alice) (Delete 1) shared_ledger 1
           (invoice_of 1 10000 paid (march 10))).
  reflexivity.
Defined.

Lemma created_payment_is_stored_witness :
  payments (snd (post_payment (Some alice) (pay 6000 []) (ledger 10000 pending [])))
  = payments (ledger 10000 pending []) ++ [payment_of 1 6000]
  /\ next_payment_id (snd (post_payment (Some alice) (pay 6000 [])
                                        (ledger 10000 pending [])))
     = next_payment_id (ledger 10000 pending []) + 1
  /\ pay_id (payment_of 1 6000) = next_payment_id (ledger 10000 pending [])
  /\ pay_invoiceId (payment_of 1 6000) = body_invoiceId (pay 6000 [])
  /\ body_amount (pay 6000 []) = Some (pay_amount (payment_of 1 6000))
  /\ option_map user_id (Some alice) = Some (pay_userId (payment_of 1 6000)).
Proof.
  apply (created_payment_is_stored (Some alice) (pay 6000 [])
           (ledger 10000 pending []) (payment_of 1 6000)).
  reflexivity.
Defined.

Lemma deleted_payment_is_gone_witness :
  payments (snd (delete_payment (Some alice) 1 shared_ledger))
  = filter (fun p => negb (pay_id p =? 1)) (payments shared_ledger)
  /\ getPayment 1 (snd (delete_payment (Some alice) 1 shared_ledger)) = None
  /\ forall id', id' <> 1 ->
       getPayment id' (snd (delete_payment (Some alice) 1 shared_ledger))
       = getPayment id' shared_ledger.
Proof.
  apply (deleted_payment_is_gone (Some alice) 1 shared_ledger). reflexivity.
Defined.

Lemma updated_payment_is_returned_witness :
  exists p,
    getPayment 1 shared_ledger = Some p
    /\ Some (payment_of 1 10000) = Some (apply_partial (new_amount 10000) p)
    /\ getPayment 1 (snd (put_payment (Some alice) 1 (new_amount 10000) shared_ledger))
       = Some (payment_of 1 10000)
    /\ forall id', id' <> 1 ->
         getPayment id' (snd (put_payment (Some alice) 1 (new_amount 10000) shared_ledger))
         = getPayment id' shared_ledger.
Proof.
  apply (updated_payment_is_returned (Some alice) 1 (new_amount 10000) shared_ledger
           (Some (payment_of 1 10000))).
  reflexivity.
Defined.

Lemma create_route_status_rule_witness :
  exists st',
    post_payment (Some alice) (pay 6000 []) (ledger 10000 pending [])
    = (Created (payment_of 1 6000), st').
Proof.
  eexists.
  eapply (create_route_status_rule alice (pay 6000 []) (ledger 10000 pending []));
    reflexivity.
Defined.

Lemma moved_payment_reopens_any_invoice_witness :
  fst (put_payment (Some bob) 2 (move_to 1) shared_ledger)
  = Updated (Some (apply_partial (move_to 1)
                     {| pay_id := 2; pay_invoiceId := 2; pay_amount := 2000;
                        pay_date := march 10; pay_receiptGenerated := false;
                        pay_userId := 2 |}))
  /\ fst (delete_payment (Some bob) 2
            (snd (put_payment (Some bob) 2 (move_to 1) shared_ledger)))
     = Deleted
  /\ option_map inv_status
       (getInvoice 1
          (snd (delete_payment (Some bob) 2
                  (snd (put_payment (Some bob) 2 (move_to 1) shared_ledger)))))
     = Some pending.
Proof.
  apply (moved_payment_reopens_any_invoice bob 2 1 shared_ledger
           {| pay_id := 2; pay_invoiceId := 2; pay_amount := 2000;
              pay_date := march 10; pay_receiptGenerated := false;
              pay_userId := 2 |}
           (invoice_of 1 10000 paid (march 10))); reflexivity.
Defined.

End MoreInstances.

Section InvoiceInstances.

Import Examples TwoUsers InvoiceRoutes.

Lemma deleted_invoice_leaves_its_payments_witness :
  getInvoice 1 (snd (delete_invoice (Some alice) 1 shared_ledger)) = None
  /\ payments (snd (delete_invoice (Some alice) 1 shared_ledger))
     = payments shared_ledger
  /\ (forall (u : User) (body : PaymentBody),
        body_invoiceId body = 1 ->
        post_payment (Some u) body (snd (delete_invoice (Some alice) 1 shared_ledger))
        = (NotFound, snd (delete_invoice (Some alice) 1 shared_ledger)))
  /\ (forall (u : User) (pid : Z) (p : Payment),
        getPayment pid (snd (delete_invoice (Some alice) 1 shared_ledger)) = Some p ->
        pay_invoiceId p = 1 ->
        denied u (pay_userId p) = false ->
        delete_payment (Some u) pid (snd (delete_invoice (Some alice) 1 shared_ledger))
        = (Deleted,
           deletePayment pid (snd (delete_invoice (Some alice) 1 shared_ledger)))).
Proof.
  apply (deleted_invoice_leaves_its_payments (Some alice) 1 shared_ledger).
  reflexivity.
Defined.

Lemma put_invoice_stores_what_is_sent_witness :
  exists inv,
    getInvoice 1 shared_ledger = Some inv
    /\ Some (invoice_of 1 10000 overdue (march 10))
       = Some (apply_partial_invoice
                 {| pinv_amount := None; pinv_date := None;
                    pinv_status := Some overdue; pinv_userId := None;
                    pinv_other := false |} inv)
    /\ getInvoice 1
         (snd (put_invoice (Some alice) 1
                 {| pinv_amount := None; pinv_date := None;
                    pinv_status := Some overdue; pinv_userId := None;
                    pinv_other := false |}
                 shared_ledger))
       = Some (invoice_of 1 10000 overdue (march 10))
    /\ payments
         (snd (put_invoice (Some alice) 1
                 {| pinv_amount := None; pinv_date := None;
                    pinv_status := Some overdue; pinv_userId := None;
                    pinv_other := false |}
                 shared_ledger))
       = payments shared_ledger.
Proof.
  apply (put_invoice_stores_what_is_sent (Some alice) 1
           {| pinv_amount := None; pinv_date := None;
              pinv_status := Some overdue; pinv_userId := None;
                    pinv_other := false |}
           shared_ledger (Some (invoice_of 1 10000 overdue (march 10)))).
  reflexivity.
Defined.

Lemma accountant_lists_own_invoices_witness :
  exists l,
    get_invoices (Some alice) shared_ledger = Reply200 l
    /\ (In (invoice_of 1 10000 paid (march 10)) l
        <-> In (invoice_of 1 10000 paid (march 10)) (invoices shared_ledger)
            /\ inv_userId (invoice_of 1 10000 paid (march 10)) = user_id alice).
Proof.
  apply (accountant_lists_own_invoices alice shared_ledger
           (invoice_of 1 10000 paid (march 10))); [reflexivity | discriminate].
Defined.

Lemma listed_payment_may_be_out_of_reach_witness :
  (exists l, get_payments_of_invoice (Some alice) 1 shared_ledger = Reply200 l
             /\ In {| pay_id := 3; pay_invoiceId := 1; pay_amount := 3000;
                      pay_date := march 10; pay_receiptGenerated := false;
                      pay_userId := 9 |} l)
  /\ get_payment (Some alice) 3 shared_ledger = Reply403
  /\ put_payment (Some alice) 3 (new_amount 1) shared_ledger
     = (AccessDenied, shared_ledger)
  /\ delete_payment (Some alice) 3 shared_ledger = (AccessDenied, shared_ledger).
Proof.
  apply (listed_payment_may_be_out_of_reach alice shared_ledger
           (invoice_of 1 10000 paid (march 10))
           {| pay_id := 3; pay_invoiceId := 1; pay_amount := 3000;
              pay_date := march 10; pay_receiptGenerated := false;
              pay_userId := 9 |}
           (new_amount 1));
    try reflexivity; discriminate.
Defined.

Lemma created_payment_raises_totalPayments_witness :
  exists before after,
    get_dashboard (Some alice) (ledger 10000 pending []) = Dashboard before
    /\ get_dashboard (Some alice)
         (snd (post_payment (Some alice) (pay 6000 []) (ledger 10000 pending [])))
       = Dashboard after
    /\ totalPayments after
       = (totalPayments before + Number_of_decimal 6000)%float
    /\ outstandingBalance after
       = (totalRevenue after
          - (totalPayments before + Number_of_decimal 6000))%float
    /\ (pendingInvoices after <= pendingInvoices before)%nat.
Proof.
  eexists. eexists.
  split; [reflexivity|]. split; [reflexivity|].
  apply (created_payment_raises_totalPayments alice (pay 6000 [])
           (ledger 10000 pending []) (payment_of 1 6000)); reflexivity.
Defined.

End InvoiceInstances.

Section HelperInstances.

Import Examples Money CurrencyService Reports ReportMonths.

Lemma zero_tax_rate_witness :
  exists text,
    toFixed2 (numeric (AmountString "19.99")) = Some text
    /\ calculateTax (AmountString "19.99") zero = Some "0.00"%string
    /\ calculateTotalWithTax (AmountString "19.99") zero = Some text.
Proof.
  apply (zero_tax_rate (AmountString "19.99")); vm_compute; reflexivity.
Defined.

Lemma buckets_are_consecutive_months_witness :
  calculateReportData (Some three_invoices) (Some []) false false
                      "last_6_months" clock_east (fun _ => zero)
  = Some (map (fun i => point_of_month three_invoices []
                          (month_number clock_east (monthsCount "last_6_months") i)
                          zero)
              (seq 0 (monthsCount "last_6_months"))).
Proof.
  apply (buckets_are_consecutive_months three_invoices [] "last_6_months"
           clock_east (fun _ => zero)); [discriminate | reflexivity].
Defined.

End HelperInstances.

(** * The primary key of the payments *)

Section PaymentKeys.

Import InvoiceRoutes.

Lemma ids_after_update (id : Z) (d : PartialPayment) (l : list Payment) :
  Permutation
    (map pay_id (update_rows (fun p => pay_id p =? id) (apply_partial d) l))
    (map pay_id l).
Proof. now apply update_rows_permutes. Qed.

Lemma ids_below_after_update (id n : Z) (d : PartialPayment) (l : list Payment) :
  Forall (fun p => pay_id p < n) l ->
  Forall (fun p => pay_id p < n)
         (update_rows (fun p => pay_id p =? id) (apply_partial d) l).
Proof.
  intros H. rewrite Forall_forall in H.
  apply Forall_forall. intros q Hq. unfold update_rows in Hq.
  apply in_app_or in Hq. destruct Hq as [Hq | Hq].
  - apply filter_In in Hq. now apply H.
  - apply in_map_iff in Hq. destruct Hq as (q0 & <- & Hq0).
    apply filter_In in Hq0. simpl. now apply H.
Qed.

Lemma ids_after_filter (f : Payment -> bool) (l : list Payment) :
  NoDup (map pay_id l) -> NoDup (map pay_id (filter f l)).
Proof.
  induction l as [|p l IH]; simpl; [trivial|].
  intros H. inversion H as [|x xs Hnot Hrest]; subst.
  destruct (f p); simpl; [|now apply IH].
  constructor; [|now apply IH].
  intros Hin. apply Hnot.
  apply in_map_iff in Hin. destruct Hin as (q & Hq & Hin).
  apply filter_In in Hin. apply in_map_iff. exists q. tauto.
Qed.

Lemma keys_after_create (d : InsertPayment) (st st1 : Store) (p : Payment) :
  keys_ok st -> createPayment d st = Some (p, st1) -> keys_ok st1.
Proof.
  intros [Hnd Hlt] C. unfold createPayment in C.
  destruct (fits_decimal_10_2 _); [|discriminate].
  injection C as <- <-. unfold keys_ok; simpl. split.
  - rewrite map_app. simpl.
    apply NoDup_app; [exact Hnd | repeat constructor; simpl; tauto |].
    intros x Hin [<- | []].
    apply in_map_iff in Hin. destruct Hin as (q & Hq & Hin).
    rewrite Forall_forall in Hlt. specialize (Hlt q Hin). lia.
  - apply Forall_app. split.
    + eapply Forall_impl; [|exact Hlt]. simpl. intros q Hq. lia.
    + repeat constructor. simpl. lia.
Qed.

Lemma keys_same_payments (st st' : Store) :
  payments st' = payments st -> next_payment_id st' = next_payment_id st ->
  keys_ok st -> keys_ok st'.
Proof. unfold keys_ok. now intros -> ->. Qed.

Lemma reconcile_deleted_next (p : Payment) (st : Store) :
  next_payment_id (reconcile_deleted p st) = next_payment_id st.
Proof.
  destruct (reconcile_deleted_cases p st) as [-> | (i & _ & _ & ->)]; reflexivity.
Qed.

(** X21: the payment routes keep the primary key of the payments.  When
    no id occurs twice and the sequence is ahead of every stored id, the
    same holds after any payment call: a created payment never takes the
    id of a stored one, and an update never changes an id. *)
Theorem payment_keys_are_kept
        (user : option User) (call : PaymentCall) (st : Store) :
  keys_ok st -> keys_ok (snd (handle user call st)).
Proof.
  intros K.
  destruct (succeeded (fst (handle user call st))) eqn:S;
    [|now rewrite failure_leaves_store].
  destruct call as [body | id data | id]; simpl handle in *.
  - unfold post_payment in *.
    destruct user as [u|]; [|exact K].
    destruct (getInvoice (body_invoiceId body) st) as [invoice|]; [|exact K].
    destruct (denied u _); [exact K|].
    destruct (safeParse body (user_id u)) as [d|]; [|exact K].
    destruct (createPayment d st) as [[p st1]|] eqn:C; [|exact K].
    cbn [snd].
    destruct (reconcile_created_payments invoice p st1) as [Hp Hn].
    apply (keys_same_payments st1 _ Hp Hn).
    exact (keys_after_create d st st1 p K C).
  - unfold put_payment in *.
    destruct user as [u|]; [|exact K].
    destruct (getPayment id st); [|exact K].
    destruct (denied u _); [exact K|].
    unfold updatePayment.
    destruct (sets_no_column data); [exact K|].
    destruct (fits_decimal_10_2 _); [|exact K].
    cbn [snd]. destruct K as [Hnd Hlt]. unfold keys_ok; simpl. split.
    + apply (Permutation_NoDup (Permutation_sym (ids_after_update id data _))).
      exact Hnd.
    + now apply ids_below_after_update.
  - unfold delete_payment in *.
    destruct user as [u|]; [|exact K].
    destruct (getPayment id st) as [p|]; [|exact K].
    destruct (denied u _); [exact K|].
    cbn [snd].
    apply (keys_same_payments (deletePayment id st) _
             (reconcile_deleted_payments p _) (reconcile_deleted_next p _)).
    destruct K as [Hnd Hlt]. unfold keys_ok; simpl. split.
    + now apply ids_after_filter.
    + apply Forall_forall. intros q Hq. apply filter_In in Hq.
      rewrite Forall_forall in Hlt. now apply Hlt.
Qed.

Lemma filter_out_fresh (id : Z) (l : list Payment) :
  Forall (fun p => pay_id p < id) l ->
  filter (fun p => negb (pay_id p =? id)) l = l.
Proof.
  induction 1 as [|p l Hp _ IH]; simpl; [reflexivity|].
  assert ((pay_id p =? id) = false) as -> by (apply Z.eqb_neq; lia).
  simpl. now rewrite IH.
Qed.

Lemma find_fresh (p : Payment) (l : list Payment) :
  Forall (fun q => pay_id q < pay_id p) l ->
  find (fun q => pay_id q =? pay_id p) (l ++ [p]) = Some p.
Proof.
  induction 1 as [|q l Hq _ IH]; simpl.
  - now rewrite Z.eqb_refl.
  - assert ((pay_id q =? pay_id p) = false) as -> by (apply Z.eqb_neq; lia).
    exact IH.
Qed.

Lemma created_then_deleted
      (u : User) (body : PaymentBody) (st : Store) (p : Payment) :
  keys_ok st ->
  fst (post_payment (Some u) body st) = Created p ->
  getPayment (pay_id p) (snd (post_payment (Some u) body st)) = Some p
  /\ denied u (pay_userId p) = false
  /\ payments (deletePayment (pay_id p) (snd (post_payment (Some u) body st)))
     = payments st.
Proof.
  intros [_ Hlt] Hc.
  unfold post_payment in *.
  destruct (getInvoice (body_invoiceId body) st) as [invoice|]; [|discriminate].
  destruct (denied u _); [discriminate|].
  destruct (safeParse body (user_id u)) as [d|] eqn:P; [|discriminate].
  destruct (createPayment d st) as [[q st1]|] eqn:C; [|discriminate].
  cbn [fst snd] in *. injection Hc as ->.
  assert (payments st1 = payments st ++ [p]
          /\ pay_id p = next_payment_id st /\ pay_userId p = user_id u)
    as (Hp & Hid & Hown).
  { unfold createPayment in C.
    destruct (fits_decimal_10_2 _); [|discriminate].
    injection C as <- <-. simpl. repeat split.
    unfold safeParse in P.
    destruct (body_amount body), (body_date body); try discriminate.
    now injection P as <-. }
  destruct (reconcile_created_payments invoice p st1) as [Hp' _].
  rewrite <- Hid in Hlt.
  split; [|split].
  - unfold getPayment. rewrite Hp', Hp. now apply find_fresh.
  - rewrite Hown. apply not_denied_for_owner.
  - unfold deletePayment; simpl. rewrite Hp', Hp, filter_app, (filter_out_fresh _ _ Hlt).
    simpl. rewrite Z.eqb_refl. simpl. apply app_nil_r.
Qed.

End PaymentKeys.

Section CreateThenDelete.

Import InvoiceRoutes.

Lemma getPaymentsByInvoice_same_payments (id : Z) (st st' : Store) :
  payments st = payments st' ->
  getPaymentsByInvoice id st = getPaymentsByInvoice id st'.
Proof. unfold getPaymentsByInvoice. now intros ->. Qed.

Lemma invoice_after_create
      (u : User) (body : PaymentBody) (st : Store) (p : Payment) (inv : Invoice) :
  getInvoice (body_invoiceId body) st = Some inv ->
  fst (post_payment (Some u) body st) = Created p ->
  pay_invoiceId p = body_invoiceId body
  /\ (getInvoice (body_invoiceId body) (snd (post_payment (Some u) body st)) = Some inv
      \/ getInvoice (body_invoiceId body) (snd (post_payment (Some u) body st))
         = Some (with_status paid inv)).
Proof.
  intros G. unfold post_payment. rewrite G.
  destruct (denied u _); [discriminate|].
  destruct (safeParse body (user_id u)) as [d|] eqn:P; [|discriminate].
  destruct (createPayment d st) as [[q st1]|] eqn:C; [|discriminate].
  cbn [fst snd]. intros H. injection H as ->.
  split.
  - unfold createPayment in C.
    destruct (fits_decimal_10_2 _); [|discriminate].
    injection C as <- _. simpl.
    unfold safeParse in P.
    destruct (body_amount body), (body_date body); try discriminate.
    now injection P as <-.
  - pose proof (createPayment_invoices _ _ _ _ C) as E1.
    destruct (reconcile_created_cases inv p st1) as [-> | [-> _]].
    + left. now rewrite (getInvoice_same_invoices _ st st1 E1).
    + right. rewrite getInvoice_updateInvoice, (getInvoice_same_invoices _ st st1 E1), G.
      now rewrite (getInvoice_id _ _ _ G), Z.eqb_refl.
Qed.

(** X22: creating a payment and deleting it again restores the table of
    payments.  When the primary key is in order and a creation has
    answered 201, its creator can delete the created payment (204), and
    the payments are then those stored before the creation. *)
Theorem create_then_delete_restores_payments
        (u : User) (body : PaymentBody) (st : Store) (p : Payment) :
  keys_ok st ->
  fst (post_payment (Some u) body st) = Created p ->
  fst (delete_payment (Some u) (pay_id p) (snd (post_payment (Some u) body st)))
  = Deleted
  /\ payments (snd (delete_payment (Some u) (pay_id p)
                      (snd (post_payment (Some u) body st))))
     = payments st.
Proof.
  intros K Hc.
  destruct (created_then_deleted u body st p K Hc) as (G & D & Hp).
  unfold delete_payment. rewrite G, D. cbn [fst snd].
  split; [reflexivity|].
  now rewrite reconcile_deleted_payments.
Qed.

(** X23: two calls can turn an overdue invoice into a pending one.  When
    the creation of a payment has set an overdue invoice to paid, and the
    payments the invoice had before sum to less than its amount, deleting
    the created payment leaves the invoice pending, not overdue. *)
Theorem create_then_delete_reopens_overdue
        (u : User) (body : PaymentBody) (st : Store) (p : Payment) (inv : Invoice) :
  keys_ok st ->
  getInvoice (body_invoiceId body) st = Some inv ->
  inv_status inv = overdue ->
  fst (post_payment (Some u) body st) = Created p ->
  option_map inv_status
    (getInvoice (body_invoiceId body) (snd (post_payment (Some u) body st)))
  = Some paid ->
  (sumPayments (getPaymentsByInvoice (body_invoiceId body) st)
   <? Number_of_decimal (inv_amount inv))%float = true ->
  option_map inv_status
    (getInvoice (body_invoiceId body)
       (snd (delete_payment (Some u) (pay_id p)
               (snd (post_payment (Some u) body st)))))
  = Some pending.
Proof.
  intros K G Hover Hc Hpaid Hlt.
  destruct (created_then_deleted u body st p K Hc) as (Gp & D & Hp).
  destruct (invoice_after_create u body st p inv G Hc) as [Hinv [G1 | G1]].
  - rewrite G1 in Hpaid. simpl in Hpaid. congruence.
  - pose proof (getInvoice_id _ _ _ G) as Hid.
    rewrite <- Hinv in G1.
    rewrite (delete_payment_rule u (pay_id p) _ p (with_status paid inv) Gp D G1
               eq_refl).
    cbn [snd inv_id inv_amount with_status].
    rewrite Hid, (getPaymentsByInvoice_same_payments _ _ st Hp), Hlt.
    rewrite getInvoice_updateInvoice, Z.eqb_refl.
    change (getInvoice (body_invoiceId body)
              (deletePayment (pay_id p) (snd (post_payment (Some u) body st))))
      with (getInvoice (body_invoiceId body) (snd (post_payment (Some u) body st))).
    rewrite Hinv in G1. now rewrite G1.
Qed.

End CreateThenDelete.

Section KeyInstances.

Import Examples TwoUsers InvoiceRoutes.

Lemma shared_ledger_keys : keys_ok shared_ledger.
Proof.
  split.
  - simpl. repeat constructor; simpl; intuition discriminate.
  - repeat constructor; simpl; lia.
Qed.

Lemma empty_ledger_keys (a : decimal) (s : Status) : keys_ok (ledger a s []).
Proof. split; constructor. Qed.

Lemma payment_keys_are_kept_witness :
  keys_ok (snd (handle (Some alice) (Post (pay 2500 [])) shared_ledger)).
Proof.
  apply (payment_keys_are_kept (Some alice) (Post (pay 2500 [])) shared_ledger).
  exact shared_ledger_keys.
Defined.

Lemma create_then_delete_restores_payments_witness :
  fst (delete_payment (Some alice) (pay_id (payment_of 4 2500))
         (snd (post_payment (Some alice) (pay 2500 []) shared_ledger)))
  = Deleted
  /\ payments (snd (delete_payment (Some alice) (pay_id (payment_of 4 2500))
                      (snd (post_payment (Some alice) (pay 2500 []) shared_ledger))))
     = payments shared_ledger.
Proof.
  apply (create_then_delete_restores_payments alice (pay 2500 []) shared_ledger
           (payment_of 4 2500)); [exact shared_ledger_keys | reflexivity].
Defined.

Lemma create_then_delete_reopens_overdue_witness :
  option_map inv_status
    (getInvoice (body_invoiceId (pay 6000 []))
       (snd (delete_payment (Some alice) (pay_id (payment_of 1 6000))
               (snd (post_payment (Some alice) (pay 6000 [])
                                  (ledger 10000 overdue [])))))) 
  = Some pending.
Proof.
  apply (create_then_delete_reopens_overdue alice (pay 6000 [])
           (ledger 10000 overdue []) (payment_of 1 6000)
           (invoice_of 1 10000 overdue (march 10)));
    [apply empty_ledger_keys | reflexivity | reflexivity | reflexivity
    | reflexivity | reflexivity].
Defined.

End KeyInstances.
